(** * y-socket.io: the synchronisation and session-lifecycle engine

    A shallow embedding of the client [SocketIOProvider]
    (src/client/provider.ts), the server [Document] (src/server/document.ts),
    the [MemoryDocumentsController] and the [YSocketIO] server
    (src/server/y-socket-io.ts), followed by the properties of the
    natural-language specification that can be stated over them.

    External collaborators (the Yjs replica, the awareness protocol of
    y-protocols, the LevelDB persistence of y-leveldb, the socket.io
    transport) are kept at their interface: the replica is a type class whose
    operations are parameters of every definition, the others are small
    models of the library behaviour the code relies on. *)

From stdpp Require Import base option list gmap strings.
From Stdlib Require Import ZArith.

Open Scope string_scope.
Open Scope list_scope.
Open Scope stdpp_scope.

(** [x !== undefined], [x != null], [map.has(k)]: a value is there. *)
Definition defined {A} (x : option A) : bool :=
  match x with
  | Some _ => true
  | None => false
  end.

(** ** Yjs: the replica, at its interface *)

Module Y.

(** What the code uses of a [Y.Doc]: its state vector, the update that brings
    a peer with a given state vector (or an empty peer, for [None]) up to date,
    applying an update, merging updates, and the payload of the ['update']
    event a transaction fires ([None] when the transaction changed nothing). *)
Class Replica : Type := {
  Doc : Type;
  Update : Type;
  StateVector : Type;
  newDoc : Doc;
  encodeStateVector : Doc -> StateVector;
  encodeStateAsUpdate : Doc -> option StateVector -> Update;
  applyUpdate : Doc -> Update -> Doc;
  updateEvent : Doc -> Update -> option Update;
  mergeUpdates : list Update -> Update
}.

(** A small replica to run the model on: a grow-only set of operation
    identifiers, kept as a list without repetition. *)
Definition missing (known : list nat) (ops : list nat) : list nat :=
  filter (fun o => o ∉ known) ops.

Fixpoint joinOps (acc : list nat) (us : list (list nat)) : list nat :=
  match us with
  | [] => acc
  | u :: rest => joinOps (acc ++ missing acc u) rest
  end.

#[export] Instance GrowOnly : Replica := {|
  Doc := list nat;
  Update := list nat;
  StateVector := list nat;
  newDoc := [];
  encodeStateVector d := d;
  encodeStateAsUpdate d sv := match sv with Some v => missing v d | None => d end;
  applyUpdate d u := d ++ missing d u;
  updateEvent d u := match missing d u with [] => None | n => Some n end;
  mergeUpdates us := joinOps [] us
|}.

End Y.

(** ** y-protocols/awareness, as far as the code calls it *)

Module AwarenessProtocol.

(** The change record of the ['update'] and ['change'] events
    (src/types/common.ts). *)
Record AwarenessChange := {
  added : list nat;
  updated : list nat;
  removed : list nat
}.

(** An awareness instance: its own client id, the [states] map in insertion
    order (a JavaScript [Map]) and the clock of every known client. *)
Record Awareness := {
  clientID : nat;
  states : list (nat * string);
  meta : gmap nat nat
}.

(** An encoded awareness update: client id, clock and state ([None] for the
    JSON [null] of a removed client), one entry per client. *)
Definition AwarenessUpdate := list (nat * nat * option string).

Definition getState (a : Awareness) (c : nat) : option string :=
  (fun r => snd (snd r)) <$> list_find (fun e => fst e = c) (states a).

Definition has (a : Awareness) (c : nat) : bool :=
  bool_decide (c ∈ (states a).*1).

Definition keys (a : Awareness) : list nat := (states a).*1.

Definition getLocalState (a : Awareness) : option string := getState a (clientID a).

Definition clockOf (a : Awareness) (c : nat) : nat := default 0 (meta a !! c).

(** [Map.prototype.delete]. *)
Definition deleteState (c : nat) (l : list (nat * string)) : list (nat * string) :=
  filter (fun e => fst e ≠ c) l.

Definition encodeAwarenessUpdate (a : Awareness) (clients : list nat) : AwarenessUpdate :=
  (fun c => (c, clockOf a c, getState a c)) <$> clients.

(** [encodeAwarenessUpdate(awareness, clients, new Map())]: every client is
    encoded with the [null] state. *)
Definition encodeAwarenessRemoval (a : Awareness) (clients : list nat) : AwarenessUpdate :=
  (fun c => (c, clockOf a c, None)) <$> clients.

(** The loop of [removeAwarenessStates]: every listed client that has a state
    loses it (the local client's clock is bumped); the removed ids are
    collected in order. *)
Fixpoint removeLoop (clients : list nat) (a : Awareness) (acc : list nat)
  : Awareness * list nat :=
  match clients with
  | [] => (a, acc)
  | c :: rest =>
      if has a c then
        let m := if bool_decide (c = clientID a)
                 then <[c := S (clockOf a c)]> (meta a) else meta a in
        removeLoop rest
          {| clientID := clientID a; states := deleteState c (states a); meta := m |}
          (acc ++ [c])
      else removeLoop rest a acc
  end.

(** [removeAwarenessStates]: the new store and, when something was removed,
    the change both events carry. *)
Definition removeAwarenessStates (a : Awareness) (clients : list nat)
  : Awareness * option AwarenessChange :=
  let '(a', gone) := removeLoop clients a [] in
  (a', match gone with
       | [] => None
       | _ => Some {| added := []; updated := []; removed := gone |}
       end).

(** [setLocalState(null)], which [destroy] calls. *)
Definition clearLocalState (a : Awareness) : Awareness :=
  {| clientID := clientID a;
     states := deleteState (clientID a) (states a);
     meta := <[clientID a := match meta a !! clientID a with
                             | Some k => S k | None => 0 end]> (meta a) |}.

(** [Map.prototype.set]: a key that is present keeps its place, a new key
    goes last. *)
Definition setState (c : nat) (v : string) (l : list (nat * string))
  : list (nat * string) :=
  if bool_decide (c ∈ l.*1)
  then (fun e => if bool_decide (e.1 = c) then (c, v) else e) <$> l
  else l ++ [(c, v)].

(** The loop of [applyAwarenessUpdate]: an entry is taken when its clock is
    newer than the known one, or equal to it for a removal of a client that
    still has a state. A removal of the local client's own state is not
    carried out; its clock is raised instead. The ids are collected as the
    ['update'] event reports them. *)
Fixpoint applyLoop (entries : AwarenessUpdate) (a : Awareness) (acc : AwarenessChange)
  : Awareness * AwarenessChange :=
  match entries with
  | [] => (a, acc)
  | (c, clock, state) :: rest =>
      let clientMeta := meta a !! c in
      let currClock := default 0 clientMeta in
      if Nat.ltb currClock clock
         || (Nat.eqb currClock clock && negb (defined state) && has a c)
      then
        let keepLocal := bool_decide (c = clientID a) && defined (getLocalState a) in
        let a' :=
          {| clientID := clientID a;
             states := match state with
                       | Some v => setState c v (states a)
                       | None => if keepLocal then states a else deleteState c (states a)
                       end;
             meta := <[c := match state with
                            | Some _ => clock
                            | None => if keepLocal then S clock else clock
                            end]> (meta a) |} in
        applyLoop rest a'
          match clientMeta, state with
          | None, Some _ =>
              {| added := added acc ++ [c]; updated := updated acc; removed := removed acc |}
          | Some _, None =>
              {| added := added acc; updated := updated acc; removed := removed acc ++ [c] |}
          | Some _, Some _ =>
              {| added := added acc; updated := updated acc ++ [c]; removed := removed acc |}
          | None, None => acc
          end
      else applyLoop rest a acc
  end.

(** [applyAwarenessUpdate]: the new store and, when a client was added,
    updated or removed, the change the ['update'] event carries. *)
Definition applyAwarenessUpdate (a : Awareness) (update : AwarenessUpdate)
  : Awareness * option AwarenessChange :=
  let '(a', change) := applyLoop update a {| added := []; updated := []; removed := [] |} in
  (a', match added change, updated change, removed change with
       | [], [], [] => None
       | _, _, _ => Some change
       end).

End AwarenessProtocol.

(** ** The client: [SocketIOProvider] (src/client/provider.ts) *)

Module Client.

Import AwarenessProtocol.

Section Provider.

Context `{R : Y.Replica}.

(** The [origin] argument of a document update: the provider itself (an
    update it applied on behalf of a peer) or anything else. *)
Inductive Origin :=
| ThisProvider
| OtherOrigin (tag : string).

Inductive Status := connecting | connected | disconnected.

(** Messages of the broadcast channel. *)
Inductive BcMessage :=
| BcSyncStep1 (sv : Y.StateVector)
| BcSyncStep2 (u : Y.Update)
| BcSyncUpdate (u : Y.Update)
| BcQueryAwareness
| BcAwarenessUpdate (au : AwarenessUpdate).

(** What the provider does to the outside, in the order it does it: events
    it emits as an [Observable], calls on its socket, on the broadcast
    channel, on the [onPending] callback and on an acknowledgment callback. *)
Inductive Effect :=
| Emit_status (s : Status)
| Emit_synced (state : bool)
| Emit_sync (state : bool)
| Emit_connection_close (reason : string)
| Emit_connection_error (error : string)
| Socket_connect
| Socket_disconnect
| Socket_emit_sync_step_1 (sv : Y.StateVector)
| Socket_emit_sync_update (u : Y.Update)
| Socket_emit_awareness_update (au : AwarenessUpdate)
| Bc_subscribe
| Bc_unsubscribe
| Bc_publish (m : BcMessage)
| OnPending (pending : bool)
| SyncStep2 (u : Y.Update)
| Remove_unload_listener
| Observable_destroy.

(** The callbacks handed to [setTimeout] and [setInterval]. *)
Inductive TimerTask :=
| FlushPending (origin : Origin) (delay : option nat)
| Resync (period : Z).

(** The provider with the part of its environment it acts on: the socket's
    [connected] flag, the armed timers by handle, and the trace of effects.
    [onPending] says whether a callback is registered; [docListening] and
    [awarenessListening] whether [onUpdateDoc] and [awarenessUpdate] are
    attached to the document and the awareness; [resyncConfig] is the
    [resyncInterval] option the constructor closes over. *)
#[projections(primitive)]
Record Provider := mkProvider {
  debounceTime : option nat;
  updateTimer : option nat;
  onPending : bool;
  pendingUpdates : list Y.Update;
  doc : Y.Doc;
  docClientID : nat;
  awareness : Awareness;
  disableBc : bool;
  bcconnected : bool;
  _synced : bool;
  resyncInterval : option nat;
  resyncConfig : Z;
  socketConnected : bool;
  docListening : bool;
  awarenessListening : bool;
  timers : gmap nat TimerTask;
  nextTimer : nat;
  trace : list Effect
}.

Definition Cmd := Provider -> Provider.


Definition set_updateTimer (v : option nat) : Cmd := fun p =>
  mkProvider (debounceTime p) v (onPending p) (pendingUpdates p) (doc p)
    (docClientID p) (awareness p) (disableBc p) (bcconnected p) (_synced p)
    (resyncInterval p) (resyncConfig p) (socketConnected p) (docListening p)
    (awarenessListening p) (timers p) (nextTimer p) (trace p).

Definition set_pendingUpdates (v : list Y.Update) : Cmd := fun p =>
  mkProvider (debounceTime p) (updateTimer p) (onPending p) v (doc p)
    (docClientID p) (awareness p) (disableBc p) (bcconnected p) (_synced p)
    (resyncInterval p) (resyncConfig p) (socketConnected p) (docListening p)
    (awarenessListening p) (timers p) (nextTimer p) (trace p).

Definition set_doc (v : Y.Doc) : Cmd := fun p =>
  mkProvider (debounceTime p) (updateTimer p) (onPending p) (pendingUpdates p) v
    (docClientID p) (awareness p) (disableBc p) (bcconnected p) (_synced p)
    (resyncInterval p) (resyncConfig p) (socketConnected p) (docListening p)
    (awarenessListening p) (timers p) (nextTimer p) (trace p).

Definition set_awareness (v : Awareness) : Cmd := fun p =>
  mkProvider (debounceTime p) (updateTimer p) (onPending p) (pendingUpdates p) (doc p)
    (docClientID p) v (disableBc p) (bcconnected p) (_synced p)
    (resyncInterval p) (resyncConfig p) (socketConnected p) (docListening p)
    (awarenessListening p) (timers p) (nextTimer p) (trace p).

Definition set_bcconnected (v : bool) : Cmd := fun p =>
  mkProvider (debounceTime p) (updateTimer p) (onPending p) (pendingUpdates p) (doc p)
    (docClientID p) (awareness p) (disableBc p) v (_synced p)
    (resyncInterval p) (resyncConfig p) (socketConnected p) (docListening p)
    (awarenessListening p) (timers p) (nextTimer p) (trace p).

Definition set__synced (v : bool) : Cmd := fun p =>
  mkProvider (debounceTime p) (updateTimer p) (onPending p) (pendingUpdates p) (doc p)
    (docClientID p) (awareness p) (disableBc p) (bcconnected p) v
    (resyncInterval p) (resyncConfig p) (socketConnected p) (docListening p)
    (awarenessListening p) (timers p) (nextTimer p) (trace p).

Definition set_resyncInterval (v : option nat) : Cmd := fun p =>
  mkProvider (debounceTime p) (updateTimer p) (onPending p) (pendingUpdates p) (doc p)
    (docClientID p) (awareness p) (disableBc p) (bcconnected p) (_synced p)
    v (resyncConfig p) (socketConnected p) (docListening p)
    (awarenessListening p) (timers p) (nextTimer p) (trace p).

Definition set_socketConnected (v : bool) : Cmd := fun p =>
  mkProvider (debounceTime p) (updateTimer p) (onPending p) (pendingUpdates p) (doc p)
    (docClientID p) (awareness p) (disableBc p) (bcconnected p) (_synced p)
    (resyncInterval p) (resyncConfig p) v (docListening p)
    (awarenessListening p) (timers p) (nextTimer p) (trace p).

Definition set_docListening (v : bool) : Cmd := fun p =>
  mkProvider (debounceTime p) (updateTimer p) (onPending p) (pendingUpdates p) (doc p)
    (docClientID p) (awareness p) (disableBc p) (bcconnected p) (_synced p)
    (resyncInterval p) (resyncConfig p) (socketConnected p) v
    (awarenessListening p) (timers p) (nextTimer p) (trace p).

Definition set_awarenessListening (v : bool) : Cmd := fun p =>
  mkProvider (debounceTime p) (updateTimer p) (onPending p) (pendingUpdates p) (doc p)
    (docClientID p) (awareness p) (disableBc p) (bcconnected p) (_synced p)
    (resyncInterval p) (resyncConfig p) (socketConnected p) (docListening p)
    v (timers p) (nextTimer p) (trace p).

Definition set_timers (v : gmap nat TimerTask) (n : nat) : Cmd := fun p =>
  mkProvider (debounceTime p) (updateTimer p) (onPending p) (pendingUpdates p) (doc p)
    (docClientID p) (awareness p) (disableBc p) (bcconnected p) (_synced p)
    (resyncInterval p) (resyncConfig p) (socketConnected p) (docListening p)
    (awarenessListening p) v n (trace p).

Definition set_trace (v : list Effect) : Cmd := fun p =>
  mkProvider (debounceTime p) (updateTimer p) (onPending p) (pendingUpdates p) (doc p)
    (docClientID p) (awareness p) (disableBc p) (bcconnected p) (_synced p)
    (resyncInterval p) (resyncConfig p) (socketConnected p) (docListening p)
    (awarenessListening p) (timers p) (nextTimer p) v.

(** Statements in sequence, and a statement under a condition. *)
Definition andThen (c1 c2 : Cmd) : Cmd := fun p => c2 (c1 p).
Definition when (c : Provider -> bool) (k : Cmd) : Cmd := fun p =>
  if c p then k p else p.
Definition skip : Cmd := fun p => p.

Notation "c1 >>> c2" := (andThen c1 c2) (at level 65, right associativity).

Definition effect (e : Effect) : Cmd := fun p => set_trace (trace p ++ [e]) p.

(** [setTimeout] and [setInterval] arm a timer under a fresh handle, which
    the continuation receives; [clearTimeout] and [clearInterval] disarm it
    (a handle that is not armed is ignored). *)
Definition setTimer (task : TimerTask) (k : nat -> Cmd) : Cmd := fun p =>
  let h := nextTimer p in
  k h (set_timers (<[h := task]> (timers p)) (S h) p).

Definition clearTimer (h : nat) : Cmd := fun p =>
  set_timers (delete h (timers p)) (nextTimer p) p.

(** The [synced] setter. *)
Definition set_synced (state : bool) : Cmd := fun p =>
  if negb (eqb (_synced p) state) then
    (set__synced state >>> effect (Emit_synced state) >>> effect (Emit_sync state)) p
  else p.

Definition onUpdateDocInner (update : Y.Update) (origin : Origin) : Cmd :=
  effect (Socket_emit_sync_update update) >>>
  when bcconnected (effect (Bc_publish (BcSyncUpdate update))).

(** The callback [onUpdateDoc] hands to [setTimeout]. *)
Definition flushPending (origin : Origin) : Cmd :=
  (fun p => onUpdateDocInner (Y.mergeUpdates (pendingUpdates p)) origin p) >>>
  when onPending (effect (OnPending false)) >>>
  set_updateTimer None.

Definition onUpdateDoc (update : Y.Update) (origin : Origin) : Cmd := fun p =>
  match origin with
  | ThisProvider => p
  | OtherOrigin _ =>
      (when (fun p => defined (debounceTime p))
         (onUpdateDocInner update origin) >>>
       (fun p =>
          match updateTimer p with
          | Some h =>
              (when onPending (effect (OnPending true)) >>>
               set_pendingUpdates (pendingUpdates p ++ [update]) >>>
               clearTimer h) p
          | None => set_pendingUpdates [update] p
          end) >>>
       setTimer (FlushPending origin (debounceTime p))
         (fun h => set_updateTimer (Some h))) p
  end.

(** [Y.applyUpdate(this.doc, update, origin)]: the document changes and, when
    the transaction changed something, its ['update'] listeners run. *)
Definition applyUpdate (update : Y.Update) (origin : Origin) : Cmd := fun p =>
  let p' := set_doc (Y.applyUpdate (doc p) update) p in
  match Y.updateEvent (doc p) update with
  | Some u => when docListening (onUpdateDoc u origin) p'
  | None => p'
  end.

(** The listeners of [initSyncListeners]. *)
Definition onSocketSyncStep1 (stateVector : Y.StateVector) : Cmd :=
  (fun p => effect (SyncStep2 (Y.encodeStateAsUpdate (doc p) (Some stateVector))) p) >>>
  set_synced true.

Definition onSocketSyncUpdate (update : Y.Update) : Cmd :=
  applyUpdate update ThisProvider.

Definition awarenessUpdate (change : AwarenessChange) : Cmd := fun p =>
  let changedClients := added change ++ updated change ++ removed change in
  (effect (Socket_emit_awareness_update
             (encodeAwarenessUpdate (awareness p) changedClients)) >>>
   when bcconnected
     (effect (Bc_publish (BcAwarenessUpdate
                (encodeAwarenessUpdate (awareness p) changedClients))))) p.

(** [AwarenessProtocol.removeAwarenessStates(this.awareness, clients, origin)]
    with the ['update'] event it fires. *)
Definition removeStates (clients : list nat) : Cmd := fun p =>
  let '(a, change) := removeAwarenessStates (awareness p) clients in
  match change with
  | Some c => when awarenessListening (awarenessUpdate c) (set_awareness a p)
  | None => set_awareness a p
  end.

Definition beforeUnloadHandler : Cmd := fun p => removeStates [docClientID p] p.

Definition connectBc : Cmd :=
  when (fun p => negb (bcconnected p)) (effect Bc_subscribe >>> set_bcconnected true) >>>
  (fun p => effect (Bc_publish (BcSyncStep1 (Y.encodeStateVector (doc p)))) p) >>>
  (fun p => effect (Bc_publish (BcSyncStep2 (Y.encodeStateAsUpdate (doc p) None))) p) >>>
  effect (Bc_publish BcQueryAwareness) >>>
  (fun p => effect (Bc_publish (BcAwarenessUpdate
              (encodeAwarenessUpdate (awareness p) [docClientID p]))) p).

Definition disconnectBc : Cmd :=
  (fun p => effect (Bc_publish (BcAwarenessUpdate
              (encodeAwarenessRemoval (awareness p) [docClientID p]))) p) >>>
  when bcconnected (effect Bc_unsubscribe >>> set_bcconnected false).

Definition connect : Cmd :=
  when (fun p => negb (socketConnected p))
    (effect (Emit_status connecting) >>>
     effect Socket_connect >>>
     when (fun p => negb (disableBc p)) connectBc >>>
     set_synced false).

Definition emitSyncStep1 : Cmd := fun p =>
  effect (Socket_emit_sync_step_1 (Y.encodeStateVector (doc p))) p.

(** The callback of the resync interval. *)
Definition resyncTick : Cmd :=
  when socketConnected emitSyncStep1.

Definition onSocketConnection (resyncInterval : Z) : Cmd :=
  effect (Emit_status connected) >>>
  emitSyncStep1 >>>
  when (fun p => defined (getLocalState (awareness p)))
    (fun p => effect (Socket_emit_awareness_update
                (encodeAwarenessUpdate (awareness p) [docClientID p])) p) >>>
  when (fun _ => (0 <? resyncInterval)%Z)
    (setTimer (Resync resyncInterval) (fun h => set_resyncInterval (Some h))).

Definition onSocketDisconnection (event : string) : Cmd :=
  effect (Emit_connection_close event) >>>
  set_synced false >>>
  (fun p => removeStates
              (filter (fun client => client ≠ docClientID p) (keys (awareness p))) p) >>>
  effect (Emit_status disconnected).

Definition onSocketConnectionError (error : string) : Cmd :=
  effect (Emit_connection_error error).

(** [socket.disconnect()] on a connected socket.io client closes it and
    fires its ['disconnect'] listener at once, with this reason. *)
Definition socketDisconnect : Cmd :=
  effect Socket_disconnect >>>
  when socketConnected
    (set_socketConnected false >>> onSocketDisconnection "io client disconnect").

Definition disconnect : Cmd :=
  when socketConnected (disconnectBc >>> socketDisconnect).

(** [awareness.destroy()]: the local state is cleared; the provider's
    listener was detached just before. *)
Definition awarenessDestroy : Cmd := fun p =>
  set_awareness (clearLocalState (awareness p)) p.

Definition destroy : Cmd :=
  (fun p => match resyncInterval p with
            | Some h => clearTimer h p
            | None => p
            end) >>>
  disconnect >>>
  effect Remove_unload_listener >>>
  set_awarenessListening false >>>
  awarenessDestroy >>>
  set_docListening false >>>
  effect Observable_destroy.

(** A timer fires: a timeout is disarmed and its callback runs, an interval
    stays armed. A handle that is not armed does nothing. *)
Definition fireTimer (h : nat) : Cmd := fun p =>
  match timers p !! h with
  | Some (FlushPending origin _) => flushPending origin (clearTimer h p)
  | Some (Resync _) => resyncTick p
  | None => p
  end.

(** What the transport delivers to the provider's socket. *)
Inductive SocketEvent :=
| Ev_connect
| Ev_disconnect (reason : string)
| Ev_connect_error (error : string)
| Ev_sync_step_1 (stateVector : Y.StateVector)
| Ev_sync_update (update : Y.Update)
| Ev_sync_step_1_ack (update : Y.Update).

Definition onSocketEvent (ev : SocketEvent) : Cmd :=
  match ev with
  | Ev_connect =>
      set_socketConnected true >>> (fun p => onSocketConnection (resyncConfig p) p)
  | Ev_disconnect reason =>
      set_socketConnected false >>> onSocketDisconnection reason
  | Ev_connect_error error => onSocketConnectionError error
  | Ev_sync_step_1 sv => onSocketSyncStep1 sv
  | Ev_sync_update u => onSocketSyncUpdate u
  | Ev_sync_step_1_ack u => applyUpdate u ThisProvider
  end.

(** The ['sync-update'] transmissions recorded in a trace. *)
Definition transmitted (t : list Effect) : list Y.Update :=
  omap (fun e => match e with Socket_emit_sync_update u => Some u | _ => None end) t.

Definition pendingCalls (t : list Effect) : list bool :=
  omap (fun e => match e with OnPending b => Some b | _ => None end) t.

(** The constructor, up to [autoConnect]: nothing armed, nothing pending. *)
Definition newProvider (d : Y.Doc) (clientID : nat) (a : Awareness)
    (resync : Z) (noBc : bool) (debounce : option nat) (pendingCb : bool) : Provider :=
  {| debounceTime := debounce; updateTimer := None; onPending := pendingCb;
     pendingUpdates := []; doc := d; docClientID := clientID; awareness := a;
     disableBc := noBc; bcconnected := false; _synced := false;
     resyncInterval := None; resyncConfig := resync; socketConnected := false;
     docListening := true; awarenessListening := true;
     timers := ∅; nextTimer := 0; trace := [] |}.

(** *** The url, the broadcast channel and the namespace of a provider *)

(** The character ['/']. *)
Definition slash : Ascii.ascii := default Ascii.zero (String.get 0 "/").

(** [url[url.length - 1]]: [None] is the [undefined] of an empty string. *)
Definition lastChar (url : string) : option Ascii.ascii :=
  String.get (String.length url - 1) url.

(** The loop [while (url[url.length - 1] === '/') url = url.slice(0, url.length - 1)]
    of the constructor, with a bound on its iterations. *)
Fixpoint trimLoop (fuel : nat) (url : string) : string :=
  match fuel with
  | 0 => url
  | S n =>
      match lastChar url with
      | Some c =>
          if Ascii.eqb c slash then trimLoop n (String.substring 0 (String.length url - 1) url)
          else url
      | None => url
      end
  end.

(** The [url] the constructor stores; the loop shortens the string at every
    iteration, so its length bounds the iterations. *)
Definition trimmedUrl (url : string) : string := trimLoop (String.length url) url.

(** [this._broadcastChannel] and the address handed to [io]. *)
Definition broadcastChannel (url roomName : string) : string :=
  String.append (trimmedUrl url) (String.append "/" roomName).

Definition socketAddress (url roomName : string) : string :=
  String.append (trimmedUrl url) (String.append "/yjs|" roomName).

(** A run of [k] slashes. *)
Fixpoint slashes (k : nat) : string :=
  match k with
  | 0 => EmptyString
  | S n => String slash (slashes n)
  end.

(** *** Awareness updates of peers, and the broadcast channel *)

(** [AwarenessProtocol.applyAwarenessUpdate(this.awareness, update, this)]
    with the ['update'] event it fires: the listener of the socket's
    ['awareness-update'] event. *)
Definition onSocketAwarenessUpdate (update : AwarenessUpdate) : Cmd := fun p =>
  let '(a, change) := applyAwarenessUpdate (awareness p) update in
  match change with
  | Some c => when awarenessListening (awarenessUpdate c) (set_awareness a p)
  | None => set_awareness a p
  end.

(** What the broadcast channel delivers: a message of one of the five types
    the provider knows, or a message of another type (the empty type among
    them). *)
Inductive BcReceived :=
| Bc_typed (m : BcMessage)
| Bc_other (type : string).

Definition onBroadcastChannelMessage (message : BcReceived) (origin : Origin) : Cmd :=
  match origin, message with
  | ThisProvider, _ => skip
  | OtherOrigin _, Bc_typed (BcSyncStep1 sv) =>
      fun p => effect (Bc_publish (BcSyncStep2 (Y.encodeStateAsUpdate (doc p) (Some sv)))) p
  | OtherOrigin _, Bc_typed (BcSyncStep2 u) => applyUpdate u ThisProvider
  | OtherOrigin _, Bc_typed (BcSyncUpdate u) => applyUpdate u ThisProvider
  | OtherOrigin _, Bc_typed BcQueryAwareness =>
      fun p => effect (Bc_publish (BcAwarenessUpdate
                 (encodeAwarenessUpdate (awareness p) (keys (awareness p))))) p
  | OtherOrigin _, Bc_typed (BcAwarenessUpdate au) => onSocketAwarenessUpdate au
  | OtherOrigin _, Bc_other _ => skip
  end.

(** *** The provider as its environment drives it

    A transaction on the document, an event of the socket, a message of the
    broadcast channel, a timer that fires, a call of the application, the
    unload of the page. *)
Inductive Input :=
| In_transaction (update : Y.Update) (origin : Origin)
| In_socket (ev : SocketEvent)
| In_socket_awareness (update : AwarenessUpdate)
| In_bc (message : BcReceived) (origin : Origin)
| In_timer (h : nat)
| In_connect
| In_disconnect
| In_destroy
| In_unload.

Definition react (i : Input) : Cmd :=
  match i with
  | In_transaction update origin => applyUpdate update origin
  | In_socket ev => onSocketEvent ev
  | In_socket_awareness update => onSocketAwarenessUpdate update
  | In_bc message origin => onBroadcastChannelMessage message origin
  | In_timer h => fireTimer h
  | In_connect => connect
  | In_disconnect => disconnect
  | In_destroy => destroy
  | In_unload => beforeUnloadHandler
  end.

Definition run (inputs : list Input) : Cmd := fun p =>
  foldl (fun q i => react i q) p inputs.

(** Local edits in a row. *)
Definition edits (origin : Origin) (updates : list Y.Update) : Cmd := fun p =>
  foldl (fun q u => onUpdateDoc u origin q) p updates.

(** The readings the timers are kept in: the armed timers, the next handle,
    [updateTimer] and [resyncInterval]. *)
Definition TimerView : Type := gmap nat TimerTask * nat * option nat * option nat.

Definition timerView (p : Provider) : TimerView :=
  (timers p, nextTimer p, updateTimer p, resyncInterval p).

Definition isFlush (task : TimerTask) : bool :=
  match task with
  | FlushPending _ _ => true
  | Resync _ => false
  end.

(** What the provider keeps true of its timers: handles are below the next
    one to be given out; an armed debounce timeout is the one [updateTimer]
    names; the handle [resyncInterval] names was given out and does not name
    a debounce timeout. *)
Definition timerViewOk (v : TimerView) : Prop :=
  let '(armed, next, debounce, resync) := v in
  (forall h task, armed !! h = Some task -> h < next)
  /\ (forall h task, armed !! h = Some task -> isFlush task = true -> debounce = Some h)
  /\ (forall h, resync = Some h ->
        h < next /\ forall task, armed !! h = Some task -> isFlush task = false).

Definition timersOk (p : Provider) : Prop := timerViewOk (timerView p).

(** *** Notifications and the flags they report *)

(** A sequence of reported values that changes at every report, followed
    from a first value: the value it ends on, or [None] when some report
    repeats the value before it. *)
Fixpoint follow (previous : bool) (reports : list bool) : option bool :=
  match reports with
  | [] => Some previous
  | b :: rest => if eqb previous b then None else follow b rest
  end.

(** The ['synced'] notifications of a trace, and its subscriptions to
    ([true]) and unsubscriptions from ([false]) the broadcast channel. *)
Definition notifiedSynced (t : list Effect) : list bool :=
  omap (fun e => match e with Emit_synced b => Some b | _ => None end) t.

Definition subscriptions (t : list Effect) : list bool :=
  omap (fun e => match e with
                 | Bc_subscribe => Some true
                 | Bc_unsubscribe => Some false
                 | _ => None
                 end) t.

(** What the provider keeps true of its notifications: the ['synced']
    notifications change value every time and end on [synced]; the
    subscriptions and unsubscriptions take turns and end on [bcconnected]. *)
Definition noticesOk (p : Provider) : Prop :=
  follow false (notifiedSynced (trace p)) = Some (_synced p)
  /\ follow false (subscriptions (trace p)) = Some (bcconnected p).

(** The effects that are neither. *)
Definition quiet (e : Effect) : bool :=
  match e with
  | Emit_synced _ | Bc_subscribe | Bc_unsubscribe => false
  | _ => true
  end.

Definition keeps (c : Cmd) : Prop := forall p, noticesOk p -> noticesOk (c p).

(** Statements that leave a reading of the provider as it is, that only add
    to the trace, and that arm and disarm no timer (and leave both timer
    handles of the provider as they are). *)
Definition preserves {A} (f : Provider -> A) (c : Cmd) : Prop :=
  forall p, f (c p) = f p.

Definition extendsTrace (c : Cmd) : Prop :=
  forall p, exists t, trace (c p) = trace p ++ t.

Definition keepsTimers (c : Cmd) : Prop :=
  preserves timers c /\ preserves resyncInterval c /\ preserves updateTimer c.

End Provider.

Notation "c1 >>> c2" := (andThen c1 c2) (at level 65, right associativity).

End Client.

(** ** The server: [Document], [MemoryDocumentsController], [YSocketIO] *)

Module Server.

Import AwarenessProtocol.

Section Server.

Context `{R : Y.Replica}.

(** A callback of the embedding application is known by what the calling
    code can observe of it: it returns, or it throws. *)
Inductive CbResult := CbReturn | CbThrow (error : string).

(** The members of [Callbacks] (src/server/document.ts): a function of the
    application, or one of the three closures [initDocument] builds. *)
Inductive OnUpdate :=
| UserOnUpdate (f : nat -> Y.Update -> CbResult)
| EmitDocumentUpdate.

Inductive OnChangeAwareness :=
| UserOnChangeAwareness (f : nat -> AwarenessUpdate -> CbResult)
| EmitAwarenessUpdate.

Inductive OnDestroy :=
| UserOnDestroy (f : nat -> CbResult)
| DeleteAndEmitDestroy.

Record Callbacks := {
  onUpdate : option OnUpdate;
  onChangeAwareness : option OnChangeAwareness;
  onDestroy : option OnDestroy
}.

(** The value the constructor receives as [localOnly]. Its declared type is
    [boolean | undefined]; at run time it is whatever stands third in the
    call, and [initDocument] passes its callbacks object there. *)
Inductive LocalOnly :=
| LocalOnlyUndefined
| LocalOnlyBoolean (b : bool)
| LocalOnlyObject (c : Callbacks).

(** [this.localOnly !== undefined && this.localOnly], as a condition. *)
Definition isLocalOnly (v : LocalOnly) : bool :=
  match v with
  | LocalOnlyUndefined => false
  | LocalOnlyBoolean b => b
  | LocalOnlyObject _ => true
  end.

(** Listeners of a document's ['update'] event, in registration order. *)
Inductive UpdateListener :=
| OnUpdateDoc
| StoreUpdate (docName : string).

(** A [Document]: the fields of the class, the replica it extends ([ydoc]),
    its ['update'] listeners, whether [onUpdateAwareness] is attached to its
    awareness, and whether it was destroyed. *)
#[projections(primitive)]
Record Document := mkDocument {
  name : string;
  namespace : string;
  localOnly : LocalOnly;
  callbacks : option Callbacks;
  gc : bool;
  ydoc : Y.Doc;
  awareness : Awareness;
  updateListeners : list UpdateListener;
  awarenessListening : bool;
  destroyed : bool
}.

Inductive Message :=
| Sync_step_1 (sv : Y.StateVector)
| Sync_update (u : Y.Update)
| Awareness_update (au : AwarenessUpdate).

(** What the server does to the outside: events of the [YSocketIO]
    observable, emissions to a namespace or a socket, acknowledgments,
    callback invocations, warnings. Documents are named by reference. *)
Inductive Effect :=
| Emit_document_loaded (doc : nat)
| Emit_document_update (doc : nat) (u : Y.Update)
| Emit_awareness_update (doc : nat) (au : AwarenessUpdate)
| Emit_document_destroy (doc : nat)
| Emit_all_document_connections_closed (doc : nat)
| Namespace_emit (nsp : string) (m : Message)
| Namespace_local_emit (nsp : string) (m : Message)
| Namespace_disconnectSockets (nsp : string)
| Socket_emit (socket : nat) (m : Message)
| SyncStep2 (socket : nat) (u : Y.Update)
| Call_onUpdate (doc : nat) (u : Y.Update)
| Call_onChangeAwareness (doc : nat) (au : AwarenessUpdate)
| Call_onDestroy (doc : nat)
| Persistence_writeState (docName : string)
| Console_warn (error : string).

(** What the [authenticate] callback does on a handshake. *)
Inductive AuthOutcome :=
| AuthResolves (allowed : bool)
| AuthRejects (error : string).

(** The server: the controller's map from room name to document (by
    reference), the documents by reference, whether persistence is set, the
    LevelDB store (the updates written under each name, oldest first), the
    configuration ([envGc] is the [GC] setting of the process environment),
    the sockets of each namespace, the document each socket's
    listeners are bound to, and the trace of effects. *)
#[projections(primitive)]
Record YSocketIO := mkYSocketIO {
  _documents : gmap string nat;
  heap : gmap nat Document;
  nextRef : nat;
  persistence : bool;
  ldb : gmap string (list Y.Update);
  authenticate : option (gmap string string -> AuthOutcome);
  gcEnabled : option bool;
  envGc : bool;
  sockets : gmap string (gset nat);
  bound : gmap nat (string * nat);
  trace : list Effect
}.

Definition set__documents (v : gmap string nat) (s : YSocketIO) : YSocketIO :=
  mkYSocketIO v (heap s) (nextRef s) (persistence s) (ldb s) (authenticate s)
    (gcEnabled s) (envGc s) (sockets s) (bound s) (trace s).

Definition set_heap (v : gmap nat Document) (n : nat) (s : YSocketIO) : YSocketIO :=
  mkYSocketIO (_documents s) v n (persistence s) (ldb s) (authenticate s)
    (gcEnabled s) (envGc s) (sockets s) (bound s) (trace s).

Definition set_ldb (v : gmap string (list Y.Update)) (s : YSocketIO) : YSocketIO :=
  mkYSocketIO (_documents s) (heap s) (nextRef s) (persistence s) v (authenticate s)
    (gcEnabled s) (envGc s) (sockets s) (bound s) (trace s).

Definition set_sockets (v : gmap string (gset nat)) (s : YSocketIO) : YSocketIO :=
  mkYSocketIO (_documents s) (heap s) (nextRef s) (persistence s) (ldb s) (authenticate s)
    (gcEnabled s) (envGc s) v (bound s) (trace s).

Definition set_bound (v : gmap nat (string * nat)) (s : YSocketIO) : YSocketIO :=
  mkYSocketIO (_documents s) (heap s) (nextRef s) (persistence s) (ldb s) (authenticate s)
    (gcEnabled s) (envGc s) (sockets s) v (trace s).

Definition set_trace (v : list Effect) (s : YSocketIO) : YSocketIO :=
  mkYSocketIO (_documents s) (heap s) (nextRef s) (persistence s) (ldb s) (authenticate s)
    (gcEnabled s) (envGc s) (sockets s) (bound s) v.

(** *** Computations that change the server and may throw *)

Inductive Outcome (A : Type) :=
| Returned (a : A)
| Threw (error : string).

Arguments Returned {A} a.
Arguments Threw {A} error.

Definition M (A : Type) : Type := YSocketIO -> Outcome A * YSocketIO.

Definition ret {A} (a : A) : M A := fun s => (Returned a, s).

Definition bind {A B} (c : M A) (k : A -> M B) : M B := fun s =>
  match c s with
  | (Returned a, s') => k a s'
  | (Threw e, s') => (Threw e, s')
  end.

Definition throw {A} (error : string) : M A := fun s => (Threw error, s).

(** [try { body } catch (error) { handler }]. *)
Definition tryCatch (body : M unit) (handler : string -> M unit) : M unit := fun s =>
  match body s with
  | (Returned a, s') => (Returned a, s')
  | (Threw e, s') => handler e s'
  end.

Definition gets {A} (f : YSocketIO -> A) : M A := fun s => (Returned (f s), s).
Definition modify (f : YSocketIO -> YSocketIO) : M unit := fun s => (Returned tt, f s).
Definition effect (e : Effect) : M unit := modify (fun s => set_trace (trace s ++ [e]) s).

Notation "x <- c1 ; c2" := (bind c1 (fun x => c2))
  (at level 100, c1 at next level, right associativity, only parsing).
Notation "c1 ;; c2" := (bind c1 (fun _ => c2))
  (at level 100, c2 at level 200, right associativity, only parsing).

(** *** Documents, by reference *)

#[local] Instance UpdateListener_eq_dec : EqDecision UpdateListener.
Proof. solve_decision. Defined.

Definition set_gc (v : bool) (d : Document) : Document :=
  mkDocument (name d) (namespace d) (localOnly d) (callbacks d) v (ydoc d)
    (awareness d) (updateListeners d) (awarenessListening d) (destroyed d).

Definition set_ydoc (v : Y.Doc) (d : Document) : Document :=
  mkDocument (name d) (namespace d) (localOnly d) (callbacks d) (gc d) v
    (awareness d) (updateListeners d) (awarenessListening d) (destroyed d).

Definition set_updateListeners (v : list UpdateListener) (d : Document) : Document :=
  mkDocument (name d) (namespace d) (localOnly d) (callbacks d) (gc d) (ydoc d)
    (awareness d) v (awarenessListening d) (destroyed d).

Definition set_awarenessListening (v : bool) (d : Document) : Document :=
  mkDocument (name d) (namespace d) (localOnly d) (callbacks d) (gc d) (ydoc d)
    (awareness d) (updateListeners d) v (destroyed d).

Definition set_destroyed (v : bool) (d : Document) : Document :=
  mkDocument (name d) (namespace d) (localOnly d) (callbacks d) (gc d) (ydoc d)
    (awareness d) (updateListeners d) (awarenessListening d) v.

Definition getDoc (d : nat) : M (option Document) := gets (fun s => heap s !! d).

Definition updateDoc (d : nat) (f : Document -> Document) : M unit :=
  modify (fun s => set_heap (alter f d (heap s)) (nextRef s) s).

Fixpoint forEach {A} (f : A -> M unit) (l : list A) : M unit :=
  match l with
  | [] => ret tt
  | x :: rest => f x ;; forEach f rest
  end.

(** *** The LevelDB store (y-leveldb), as the code uses it

    [getYDoc] replays the updates stored under a name into a fresh document;
    [storeUpdate] appends one. *)
Definition stored (s : YSocketIO) (docName : string) : list Y.Update :=
  default [] (ldb s !! docName).

Definition replay (us : list Y.Update) : Y.Doc := foldl Y.applyUpdate Y.newDoc us.

Definition getYDoc (docName : string) : M Y.Doc :=
  gets (fun s => replay (stored s docName)).

Definition storeUpdate (docName : string) (update : Y.Update) : M unit :=
  modify (fun s => set_ldb (<[docName := stored s docName ++ [update]]> (ldb s)) s).

(** *** The controller (MemoryDocumentsController) *)

Definition documents_get (docName : string) : M (option nat) :=
  gets (fun s => _documents s !! docName).

Definition documents_set (docName : string) (doc : nat) : M unit :=
  modify (fun s => set__documents (<[docName := doc]> (_documents s)) s).

Definition documents_delete (docName : string) : M unit :=
  modify (fun s => set__documents (delete docName (_documents s)) s).

Definition documents_has (docName : string) : M bool :=
  gets (fun s => defined (_documents s !! docName)).

Definition documents_getAll : M (gmap string nat) := gets _documents.

(** *** [Document] (src/server/document.ts) *)

Definition returnOrThrow (r : CbResult) : M unit :=
  match r with
  | CbReturn => ret tt
  | CbThrow e => throw e
  end.

Definition callOnUpdate (cb : OnUpdate) (d : nat) (update : Y.Update) : M unit :=
  match cb with
  | UserOnUpdate f => effect (Call_onUpdate d update) ;; returnOrThrow (f d update)
  | EmitDocumentUpdate => effect (Emit_document_update d update)
  end.

Definition callOnChangeAwareness (cb : OnChangeAwareness) (d : nat)
    (update : AwarenessUpdate) : M unit :=
  match cb with
  | UserOnChangeAwareness f =>
      effect (Call_onChangeAwareness d update) ;; returnOrThrow (f d update)
  | EmitAwarenessUpdate => effect (Emit_awareness_update d update)
  end.

Definition callOnDestroy (cb : OnDestroy) (d : nat) : M unit :=
  match cb with
  | UserOnDestroy f => effect (Call_onDestroy d) ;; returnOrThrow (f d)
  | DeleteAndEmitDestroy =>
      o <- getDoc d;
      match o with
      | Some doc => documents_delete (name doc)
      | None => ret tt
      end ;;
      effect (Emit_document_destroy d)
  end.

Definition warn (error : string) : M unit := effect (Console_warn error).

(** The constructor. The client id of the new replica, random in the code,
    is taken to be the reference; the awareness starts with the local state
    cleared ([setLocalState(null)]). *)
Definition newDocument (docName nsp : string) (lo : LocalOnly)
    (cbs : option Callbacks) : M nat := fun s =>
  let d := nextRef s in
  let doc := {| name := docName; namespace := nsp; localOnly := lo;
                callbacks := cbs; gc := envGc s; ydoc := Y.newDoc;
                awareness := {| clientID := d; states := []; meta := {[d := 1]} |};
                updateListeners := [OnUpdateDoc]; awarenessListening := true;
                destroyed := false |} in
  (Returned d, set_heap (<[d := doc]> (heap s)) (S d) s).

Definition onUpdateDoc (d : nat) (update : Y.Update) : M unit :=
  o <- getDoc d;
  match o with
  | None => ret tt
  | Some doc =>
      match callbacks doc ≫= onUpdate with
      | Some cb => tryCatch (callOnUpdate cb d update) warn
      | None => ret tt
      end ;;
      if isLocalOnly (localOnly doc)
      then effect (Namespace_local_emit (namespace doc) (Sync_update update))
      else effect (Namespace_emit (namespace doc) (Sync_update update))
  end.

Definition onUpdateAwareness (d : nat) (change : AwarenessChange) : M unit :=
  o <- getDoc d;
  match o with
  | None => ret tt
  | Some doc =>
      let changedClients := added change ++ updated change ++ removed change in
      let update := encodeAwarenessUpdate (awareness doc) changedClients in
      match callbacks doc ≫= onChangeAwareness with
      | Some cb => tryCatch (callOnChangeAwareness cb d update) warn
      | None => ret tt
      end ;;
      effect (Namespace_emit (namespace doc) (Awareness_update update))
  end.

(** [namespace.disconnectSockets()]: no socket stays in the namespace. *)
Definition disconnectSockets (nsp : string) : M unit :=
  effect (Namespace_disconnectSockets nsp) ;;
  modify (fun s => set_sockets (<[nsp := ∅]> (sockets s)) s).

(** [super.destroy()]: the replica is destroyed and, as an observable,
    drops every listener. *)
Definition superDestroy (d : nat) : M unit :=
  updateDoc d (fun doc => set_destroyed true (set_updateListeners [] doc)).

Definition destroy (d : nat) : M unit :=
  o <- getDoc d;
  match o with
  | None => ret tt
  | Some doc =>
      match callbacks doc ≫= onDestroy with
      | Some cb => tryCatch (callOnDestroy cb d) warn
      | None => ret tt
      end ;;
      updateDoc d (set_awarenessListening false) ;;
      updateDoc d (fun doc =>
        set_updateListeners (filter (fun l => l ≠ OnUpdateDoc) (updateListeners doc)) doc) ;;
      disconnectSockets (namespace doc) ;;
      superDestroy d
  end.

(** The document's ['update'] event: the listeners registered at that
    moment run in order. *)
Definition runUpdateListener (d : nat) (update : Y.Update) (l : UpdateListener) : M unit :=
  match l with
  | OnUpdateDoc => onUpdateDoc d update
  | StoreUpdate docName => storeUpdate docName update
  end.

Definition emitUpdate (d : nat) (update : Y.Update) : M unit :=
  o <- getDoc d;
  match o with
  | None => ret tt
  | Some doc => forEach (runUpdateListener d update) (updateListeners doc)
  end.

(** The awareness ['update'] event. *)
Definition emitAwarenessUpdate (d : nat) (change : AwarenessChange) : M unit :=
  o <- getDoc d;
  match o with
  | None => ret tt
  | Some doc => if awarenessListening doc then onUpdateAwareness d change else ret tt
  end.

(** [Y.applyUpdate(doc, update)]. *)
Definition applyUpdate (d : nat) (update : Y.Update) : M unit :=
  o <- getDoc d;
  match o with
  | None => ret tt
  | Some doc =>
      updateDoc d (set_ydoc (Y.applyUpdate (ydoc doc) update)) ;;
      match Y.updateEvent (ydoc doc) update with
      | Some u => emitUpdate d u
      | None => ret tt
      end
  end.

(** *** [YSocketIO] (src/server/y-socket-io.ts) *)

(** The connection middleware of [initialize]: what it passes to [next],
    or [None] when it never calls it (the callback rejected). *)
Inductive Next :=
| NextOk
| NextError (message : string).

Definition authMiddleware (s : YSocketIO) (handshake : gmap string string) : option Next :=
  match authenticate s with
  | None => Some NextOk
  | Some f =>
      match f handshake with
      | AuthResolves true => Some NextOk
      | AuthResolves false => Some (NextError "Unauthorized")
      | AuthRejects _ => None
      end
  end.

(** [socket.nsp.name.replace(/\/yjs\|/, '')]: the first occurrence of the
    prefix is removed. *)
Definition roomOf (nspName : string) : string :=
  match String.index 0 "/yjs|" nspName with
  | Some i =>
      String.substring 0 i nspName ++
      String.substring (i + 5) (String.length nspName - (i + 5)) nspName
  | None => nspName
  end.

(** [persistence.bindState], cut at its two awaits. *)
Definition bindState_getYDoc (docName : string) : M Y.Doc := getYDoc docName.

Definition bindState_storeUpdate (docName : string) (d : nat) : M unit :=
  o <- getDoc d;
  match o with
  | Some doc => storeUpdate docName (Y.encodeStateAsUpdate (ydoc doc) None)
  | None => ret tt
  end.

Definition bindState_applyUpdate (docName : string) (d : nat) (persistedYdoc : Y.Doc)
  : M unit :=
  applyUpdate d (Y.encodeStateAsUpdate persistedYdoc None) ;;
  updateDoc d (fun doc =>
    set_updateListeners (updateListeners doc ++ [StoreUpdate docName]) doc).

Definition bindState (docName : string) (d : nat) : M unit :=
  persistedYdoc <- bindState_getYDoc docName;
  bindState_storeUpdate docName d ;;
  bindState_applyUpdate docName d persistedYdoc.

(** [persistence.writeState] does nothing. *)
Definition writeState (docName : string) (d : nat) : M unit :=
  effect (Persistence_writeState docName).

(** The object [initDocument] passes to the constructor. *)
Definition initCallbacks : Callbacks :=
  {| onUpdate := Some EmitDocumentUpdate;
     onChangeAwareness := Some EmitAwarenessUpdate;
     onDestroy := Some DeleteAndEmitDestroy |}.

(** [initDocument] is an async function: between two awaits it runs without
    interruption, at an await other handlers may run. Its control points are
    the awaits of the source, each with the values read so far. *)
Inductive InitDocument :=
| Init_start
| Init_await_get (found : option nat)
| Init_await_has (doc : nat) (documentExists : bool)
| Init_await_getYDoc (doc : nat) (persistedYdoc : Y.Doc)
| Init_await_storeUpdate (doc : nat) (persistedYdoc : Y.Doc)
| Init_await_bindState (doc : nat)
| Init_await_set (doc : nat)
| Init_return (doc : nat).

(** One uninterrupted stretch of [initDocument (name, namespace, gc)]. *)
Definition initDocumentStep (docName nsp : string) (gc : bool) (pc : InitDocument)
  : M InitDocument :=
  match pc with
  | Init_start =>
      found <- documents_get docName;
      ret (Init_await_get found)
  | Init_await_get found =>
      doc <- match found with
             | Some d => ret d
             | None => newDocument docName nsp (LocalOnlyObject initCallbacks) None
             end;
      updateDoc doc (set_gc gc) ;;
      documentExists <- documents_has docName;
      ret (Init_await_has doc documentExists)
  | Init_await_has doc documentExists =>
      if documentExists then ret (Init_return doc)
      else
        enabled <- gets persistence;
        if (enabled : bool) then
          persistedYdoc <- bindState_getYDoc docName;
          ret (Init_await_getYDoc doc persistedYdoc)
        else
          documents_set docName doc ;;
          ret (Init_await_set doc)
  | Init_await_getYDoc doc persistedYdoc =>
      bindState_storeUpdate docName doc ;;
      ret (Init_await_storeUpdate doc persistedYdoc)
  | Init_await_storeUpdate doc persistedYdoc =>
      bindState_applyUpdate docName doc persistedYdoc ;;
      ret (Init_await_bindState doc)
  | Init_await_bindState doc =>
      documents_set docName doc ;;
      ret (Init_await_set doc)
  | Init_await_set doc =>
      effect (Emit_document_loaded doc) ;;
      ret (Init_return doc)
  | Init_return doc => ret (Init_return doc)
  end.

Fixpoint initDocumentRun (fuel : nat) (docName nsp : string) (gc : bool)
    (pc : InitDocument) : M InitDocument :=
  match fuel with
  | 0 => ret pc
  | S n =>
      pc' <- initDocumentStep docName nsp gc pc;
      initDocumentRun n docName nsp gc pc'
  end.

Definition returned (pc : InitDocument) : option nat :=
  match pc with
  | Init_return doc => Some doc
  | _ => None
  end.

(** [initDocument] with nothing else running at its awaits: seven stretches
    reach the [return] on every path. *)
Definition initDocument (docName nsp : string) (gc : bool) : M (option nat) :=
  pc <- initDocumentRun 7 docName nsp gc Init_start;
  ret (returned pc).

(** Two calls to [initDocument] for the same room in flight at once: at each
    turn the schedule says which of them runs its next stretch. *)
Definition initDocumentTurn (docName nsp : string) (gc : bool) (first : bool)
    (pcs : InitDocument * InitDocument) : M (InitDocument * InitDocument) :=
  if first then
    pc <- initDocumentStep docName nsp gc (fst pcs);
    ret (pc, snd pcs)
  else
    pc <- initDocumentStep docName nsp gc (snd pcs);
    ret (fst pcs, pc).

Fixpoint initDocumentRace (schedule : list bool) (docName nsp : string) (gc : bool)
    (pcs : InitDocument * InitDocument) : M (InitDocument * InitDocument) :=
  match schedule with
  | [] => ret pcs
  | first :: rest =>
      pcs' <- initDocumentTurn docName nsp gc first pcs;
      initDocumentRace rest docName nsp gc pcs'
  end.

(** The document a call has in hand at a control point, whether the
    control point is past the registration of the room (or past finding it
    registered), and a bound on the stretches left before the [return]. *)
Definition inHand (pc : InitDocument) : option nat :=
  match pc with
  | Init_start => None
  | Init_await_get found => found
  | Init_await_has doc _ | Init_await_getYDoc doc _ | Init_await_storeUpdate doc _
  | Init_await_bindState doc | Init_await_set doc | Init_return doc => Some doc
  end.

Definition settled (pc : InitDocument) : bool :=
  match pc with
  | Init_await_has _ true | Init_await_set _ | Init_return _ => true
  | _ => false
  end.

Definition remaining (pc : InitDocument) : nat :=
  match pc with
  | Init_start => 7
  | Init_await_get _ => 6
  | Init_await_has _ _ => 5
  | Init_await_getYDoc _ _ => 4
  | Init_await_storeUpdate _ _ => 3
  | Init_await_bindState _ => 2
  | Init_await_set _ => 1
  | Init_return _ => 0
  end.

(** What two calls in flight for the room [docName] keep true of the
    controller: a call past the registration finds the room registered, and
    a registered document is in the hand of one of the calls unless that
    call has not started. *)
Definition holds (pc : InitDocument) (d : nat) : Prop :=
  pc = Init_start \/ inHand pc = Some d.

Definition taskOk (docName : string) (pc : InitDocument) (s : YSocketIO) : Prop :=
  settled pc = true -> is_Some (_documents s !! docName).

Definition raceInvariant (docName : string) (pcs : InitDocument * InitDocument)
    (s : YSocketIO) : Prop :=
  taskOk docName pcs.1 s /\ taskOk docName pcs.2 s
  /\ forall d, _documents s !! docName = Some d -> holds pcs.1 d \/ holds pcs.2 d.

(** The turns a schedule gives to one of the two calls. *)
Definition turns (first : bool) (schedule : list bool) : nat :=
  length (filter (fun b => b = first) schedule).

(** The document a first call of [initDocument] for a room leaves in the
    heap of [s]: built by the constructor with the callbacks object in the
    place of [localOnly], then bound to the store when persistence is set. *)
Definition builtDocument (s : YSocketIO) (docName nsp : string) (gc : bool) : Document :=
  {| name := docName; namespace := nsp;
     localOnly := LocalOnlyObject initCallbacks; callbacks := None; gc := gc;
     ydoc := if persistence s
             then Y.applyUpdate Y.newDoc
                    (Y.encodeStateAsUpdate (replay (stored s docName)) None)
             else Y.newDoc;
     awareness := {| clientID := nextRef s; states := []; meta := {[nextRef s := 1]} |};
     updateListeners := if persistence s then [OnUpdateDoc; StoreUpdate docName]
                        else [OnUpdateDoc];
     awarenessListening := true; destroyed := false |}.

(** The listeners of [initSyncListeners]. *)
Definition onSyncStep1 (socket d : nat) (stateVector : Y.StateVector) : M unit :=
  o <- getDoc d;
  match o with
  | Some doc => effect (SyncStep2 socket (Y.encodeStateAsUpdate (ydoc doc) (Some stateVector)))
  | None => ret tt
  end.

Definition onSyncUpdate (d : nat) (update : Y.Update) : M unit := applyUpdate d update.

Definition startSynchronization (socket d : nat) : M unit :=
  o <- getDoc d;
  match o with
  | Some doc =>
      effect (Socket_emit socket (Sync_step_1 (Y.encodeStateVector (ydoc doc)))) ;;
      effect (Socket_emit socket (Awareness_update
                (encodeAwarenessUpdate (awareness doc) (keys (awareness doc)))))
  | None => ret tt
  end.

Definition socketsOf (s : YSocketIO) (nsp : string) : gset nat :=
  default ∅ (sockets s !! nsp).

(** The ['connection'] handler of [initialize]; the socket has joined its
    namespace when it runs. *)
Definition onConnection (socket : nat) (nsp : string) : M unit :=
  modify (fun s => set_sockets (<[nsp := {[socket]} ∪ socketsOf s nsp]> (sockets s)) s) ;;
  gc <- gets gcEnabled;
  o <- initDocument (roomOf nsp) nsp (default true gc);
  match o with
  | Some doc =>
      modify (fun s => set_bound (<[socket := (nsp, doc)]> (bound s)) s) ;;
      startSynchronization socket doc
  | None => ret tt
  end.

(** The ['disconnect'] listener of [initSocketListeners], for a socket of
    namespace [nsp] bound to [doc]. *)
Definition onDisconnect (nsp : string) (doc : nat) : M unit :=
  remaining <- gets (fun s => size (socketsOf s nsp));
  if bool_decide (remaining = 0) then
    effect (Emit_all_document_connections_closed doc) ;;
    enabled <- gets persistence;
    if (enabled : bool) then
      o <- getDoc doc;
      writeState (default "" (name <$> o)) doc ;;
      destroy doc
    else ret tt
  else ret tt.

(** A socket disconnects: socket.io takes it out of its namespace, then the
    listener runs. *)
Definition socketDisconnects (socket : nat) : M unit :=
  b <- gets (fun s => bound s !! socket);
  match b with
  | Some (nsp, doc) =>
      modify (fun s => set_sockets (<[nsp := socketsOf s nsp ∖ {[socket]}]> (sockets s)) s) ;;
      onDisconnect nsp doc
  | None => ret tt
  end.

(** A server as the constructor leaves it. *)
Definition newYSocketIO (persist : bool)
    (auth : option (gmap string string -> AuthOutcome)) (gcOpt : option bool)
    (envGcEnabled : bool) : YSocketIO :=
  {| _documents := ∅; heap := ∅; nextRef := 0; persistence := persist; ldb := ∅;
     authenticate := auth; gcEnabled := gcOpt; envGc := envGcEnabled;
     sockets := ∅; bound := ∅; trace := [] |}.

End Server.

Arguments Returned {A} a.
Arguments Threw {A} error.

End Server.

(** ** The transport between the two (socket.io), at the join *)

Module Transport.

Section Join.

Context `{R : Y.Replica}.

(** What the client socket receives for what the server middleware passed
    to [next]: a ['connect'] when the join went through, a
    ['connect_error'] carrying the error's message when it was refused,
    nothing while the middleware has not answered. *)
Definition joinReply (answer : option Server.Next) : list Client.SocketEvent :=
  match answer with
  | Some Server.NextOk => [Client.Ev_connect]
  | Some (Server.NextError message) => [Client.Ev_connect_error message]
  | None => []
  end.

(** A connection attempt of a provider against a server: [connect()], then
    the events the join produces. *)
Definition attempt (s : Server.YSocketIO) (handshake : gmap string string)
    (p : Client.Provider) : Client.Provider :=
  foldl (fun q ev => Client.onSocketEvent ev q) (Client.connect p)
    (joinReply (Server.authMiddleware s handshake)).

End Join.

End Transport.

(** ** Concrete runs, on the grow-only replica *)

Module Examples.

Import AwarenessProtocol.

(** A provider with a debounce window of 100 ms, no resync interval and the
    broadcast channel disabled, on an empty document with client id 7. *)
Definition debouncing : Client.Provider (R := Y.GrowOnly) :=
  Client.newProvider (R := Y.GrowOnly) [] 7
    {| clientID := 7; states := [(7, "me")]; meta := {[7 := 0]} |}
    (-1)%Z true (Some 100) true.

Definition localEdit : Client.Origin := Client.OtherOrigin "local".

(** The same provider after one local edit: its debounce timer is armed. *)
Definition edited : Client.Provider (R := Y.GrowOnly) :=
  Client.onUpdateDoc (R := Y.GrowOnly) [1] localEdit debouncing.

(** A server without persistence and without authentication, after a first
    socket joined the room [R], and after that socket left again. *)
Definition state {A} (r : Server.Outcome A * Server.YSocketIO (R := Y.GrowOnly))
  : Server.YSocketIO (R := Y.GrowOnly) := r.2.

Definition joined (persist : bool) : Server.YSocketIO (R := Y.GrowOnly) :=
  state (Server.onConnection (R := Y.GrowOnly) 1 "/yjs|R"
           (Server.newYSocketIO (R := Y.GrowOnly) persist None None true)).

Definition emptied (persist : bool) : Server.YSocketIO (R := Y.GrowOnly) :=
  state (Server.socketDisconnects (R := Y.GrowOnly) 1 (joined persist)).

(** A server that lets in the handshakes carrying the valid token. *)
Definition guarded : Server.YSocketIO (R := Y.GrowOnly) :=
  Server.newYSocketIO (R := Y.GrowOnly) false
    (Some (fun handshake =>
             Server.AuthResolves
               (bool_decide (handshake !! "token" = Some "valid-token"))))
    None true.

(** Callbacks of an application that throw whenever they are called, and a
    server holding a document they are registered on, built by the
    constructor with [localOnly] left undefined. *)
Definition throwing : Server.Callbacks (R := Y.GrowOnly) :=
  {| Server.onUpdate := Some (Server.UserOnUpdate (fun _ _ => Server.CbThrow "update failed"));
     Server.onChangeAwareness :=
       Some (Server.UserOnChangeAwareness (fun _ _ => Server.CbThrow "awareness failed"));
     Server.onDestroy := Some (Server.UserOnDestroy (fun _ => Server.CbThrow "destroy failed")) |}.

Definition hooked : Server.YSocketIO (R := Y.GrowOnly) :=
  state (Server.newDocument (R := Y.GrowOnly) "R" "/yjs|R" Server.LocalOnlyUndefined
           (Some throwing)
           (Server.newYSocketIO (R := Y.GrowOnly) true None None true)).

Definition hookedDocument : Server.Document (R := Y.GrowOnly) :=
  {| Server.name := "R"; Server.namespace := "/yjs|R";
     Server.localOnly := Server.LocalOnlyUndefined;
     Server.callbacks := Some throwing; Server.gc := true;
     Server.ydoc := Y.newDoc (Replica := Y.GrowOnly);
     Server.awareness := {| clientID := 0; states := []; meta := {[0 := 1]} |};
     Server.updateListeners := [Server.OnUpdateDoc];
     Server.awarenessListening := true; Server.destroyed := false |}.

(** The same server with two updates already in the store under [R], and
    with one operation already in the document. *)
Definition stocked : Server.YSocketIO (R := Y.GrowOnly) :=
  state (Server.applyUpdate (R := Y.GrowOnly) 0 [9]
    (state (Server.storeUpdate (R := Y.GrowOnly) "R" [2; 3]
      (state (Server.storeUpdate (R := Y.GrowOnly) "R" [1; 2] hooked))))).

(** The document of the room [R] on the server with persistence, as the
    first join leaves it. *)
Definition roomDocument : Server.Document (R := Y.GrowOnly) :=
  {| Server.name := "R"; Server.namespace := "/yjs|R";
     Server.localOnly := Server.LocalOnlyObject Server.initCallbacks;
     Server.callbacks := None; Server.gc := true;
     Server.ydoc := Y.newDoc (Replica := Y.GrowOnly);
     Server.awareness := {| clientID := 0; states := []; meta := {[0 := 1]} |};
     Server.updateListeners := [Server.OnUpdateDoc; Server.StoreUpdate "R"];
     Server.awarenessListening := true; Server.destroyed := false |}.

(** A provider with a resync interval of five seconds, once its socket has
    connected: the interval is armed under the handle 0. *)
Definition resyncing : Client.Provider (R := Y.GrowOnly) :=
  Client.onSocketEvent (R := Y.GrowOnly) Client.Ev_connect
    (Client.newProvider (R := Y.GrowOnly) [] 7
       {| clientID := 7; states := [(7, "me")]; meta := {[7 := 0]} |}
       5000%Z true None false).

(** A provider that is not connected, whose document holds two operations
    the server has not seen. *)
Definition offline : Client.Provider (R := Y.GrowOnly) :=
  Client.newProvider (R := Y.GrowOnly) [7; 8] 7
    {| clientID := 7; states := [(7, "me")]; meta := {[7 := 0]} |}
    (-1)%Z true None false.

(** The document of [stocked]: one operation, no hook to the store. *)
Definition stockedDocument : Server.Document (R := Y.GrowOnly) :=
  Server.set_ydoc (R := Y.GrowOnly) [9] hookedDocument.

(** The room [R] with two sockets in it, on the server with persistence. *)
Definition crowded : Server.YSocketIO (R := Y.GrowOnly) :=
  state (Server.onConnection (R := Y.GrowOnly) 2 "/yjs|R" (joined true)).

(** Two calls taking turns, seven stretches each. *)
Definition alternating : list bool :=
  [true; false; true; false; true; false; true; false; true; false; true; false;
   true; false].

End Examples.

(** * Properties of the provider *)

(** Unfolding of the statement combinators and of the record updates, for
    goals whose conditions are decided. *)
Ltac provider_run :=
  cbv [negb eqb defined Client.andThen Client.when Client.skip
       Client.effect Client.setTimer Client.clearTimer Client.set_updateTimer
       Client.set_pendingUpdates Client.set_doc Client.set_awareness
       Client.set_bcconnected Client.set__synced Client.set_resyncInterval
       Client.set_socketConnected Client.set_docListening
       Client.set_awarenessListening Client.set_timers Client.set_trace
       Client.debounceTime Client.updateTimer Client.onPending
       Client.pendingUpdates Client.doc Client.docClientID Client.awareness
       Client.disableBc Client.bcconnected Client._synced Client.resyncInterval
       Client.resyncConfig Client.socketConnected Client.docListening
       Client.awarenessListening Client.timers Client.nextTimer Client.trace].

Section ProviderProperties.

Import AwarenessProtocol Client.

Context `{R : Y.Replica}.

(** C10. Assigning [synced] its current value changes nothing and emits
    nothing; assigning the other value stores it and emits ['synced'] and
    ['sync'] once each, with the new value; so assigning the same value a
    second time adds no notification. *)
Theorem synced_setter_notifies_once_per_change (p : Provider) (state : bool) :
  set_synced (_synced p) p = p
  /\ _synced (set_synced (negb (_synced p)) p) = negb (_synced p)
  /\ trace (set_synced (negb (_synced p)) p)
     = trace p ++ [Emit_synced (negb (_synced p)); Emit_sync (negb (_synced p))]
  /\ _synced (set_synced state p) = state
  /\ set_synced state (set_synced state p) = set_synced state p.
Proof.
  destruct p as [? ? ? ? ? ? ? ? ? synced ? ? ? ? ? ? ? tr].
  unfold set_synced.
  repeat split; destruct synced, state; provider_run;
    rewrite <- ?app_assoc; reflexivity.
Qed.

(** C7. On a ['sync-step-1'] from the server the provider answers through
    the acknowledgment callback with the diff of its document since the
    received state vector, and then sets [synced] to true (emitting the two
    notifications when it was false). The document is not changed. *)
Theorem sync_step_1_is_acknowledged_with_the_diff (p : Provider) (stateVector : Y.StateVector) :
  trace (onSocketEvent (Ev_sync_step_1 stateVector) p)
  = trace p ++ SyncStep2 (Y.encodeStateAsUpdate (doc p) (Some stateVector))
      :: (if _synced p then [] else [Emit_synced true; Emit_sync true])
  /\ _synced (onSocketEvent (Ev_sync_step_1 stateVector) p) = true
  /\ doc (onSocketEvent (Ev_sync_step_1 stateVector) p) = doc p.
Proof.
  destruct p as [? ? ? ? ? ? ? ? ? synced ? ? ? ? ? ? ? tr].
  unfold onSocketEvent, onSocketSyncStep1, set_synced.
  repeat split; destruct synced; provider_run; rewrite <- ?app_assoc; reflexivity.
Qed.

(** *** What a statement leaves alone *)

Lemma preserves_andThen {A} (f : Provider -> A) c1 c2 :
  preserves f c1 -> preserves f c2 -> preserves f (c1 >>> c2).
Proof. intros H1 H2 p. unfold andThen. by rewrite H2, H1. Qed.

Lemma preserves_when {A} (f : Provider -> A) b c :
  preserves f c -> preserves f (when b c).
Proof. intros H p. unfold when. destruct (b p); [apply H | reflexivity]. Qed.

Lemma preserves_read {A B} (f : Provider -> A) (g : Provider -> B) (c : B -> Cmd) :
  (forall x, preserves f (c x)) -> preserves f (fun p => c (g p) p).
Proof. intros H p. apply (H (g p)). Qed.

Lemma preserves_set_synced {A} (f : Provider -> A) b :
  (forall e, preserves f (effect e)) -> preserves f (set__synced b) ->
  preserves f (set_synced b).
Proof.
  intros He H p. unfold set_synced. destruct (negb (eqb (_synced p) b)); [|reflexivity].
  apply (preserves_andThen f (set__synced b)
           (effect (Emit_synced b) >>> effect (Emit_sync b))); [exact H|].
  apply preserves_andThen; apply He.
Qed.

Lemma extendsTrace_andThen c1 c2 :
  extendsTrace c1 -> extendsTrace c2 -> extendsTrace (c1 >>> c2).
Proof.
  intros H1 H2 p. unfold andThen.
  destruct (H1 p) as [t1 E1], (H2 (c1 p)) as [t2 E2].
  exists (t1 ++ t2). by rewrite E2, E1, app_assoc.
Qed.

Lemma extendsTrace_when b c : extendsTrace c -> extendsTrace (when b c).
Proof.
  intros H p. unfold when. destruct (b p); [apply H|].
  exists []. by rewrite app_nil_r.
Qed.

Lemma extendsTrace_read {B} (g : Provider -> B) (c : B -> Cmd) :
  (forall x, extendsTrace (c x)) -> extendsTrace (fun p => c (g p) p).
Proof. intros H p. apply (H (g p)). Qed.

Lemma extendsTrace_effect e : extendsTrace (effect e).
Proof. intros p. by exists [e]. Qed.

Lemma extendsTrace_preserved c : preserves trace c -> extendsTrace c.
Proof. intros H p. exists []. by rewrite H, app_nil_r. Qed.

Lemma extendsTrace_set_synced b : extendsTrace (set_synced b).
Proof.
  intros p. unfold set_synced. destruct (negb (eqb (_synced p) b)).
  - exists [Emit_synced b; Emit_sync b]. unfold andThen, effect. cbn.
    by rewrite <- app_assoc.
  - exists []. by rewrite app_nil_r.
Qed.

(** The primitive statements change the one field they name. *)
Ltac untouched := unfold preserves; intros; reflexivity.

Create HintDb frame.

#[local] Hint Resolve preserves_andThen preserves_when preserves_set_synced
  extendsTrace_andThen extendsTrace_when extendsTrace_effect
  extendsTrace_set_synced : frame.
#[local] Hint Extern 1 (preserves _ (effect _)) => untouched : frame.
#[local] Hint Extern 1 (preserves _ (set_awareness _)) => untouched : frame.
#[local] Hint Extern 1 (preserves _ (set_bcconnected _)) => untouched : frame.
#[local] Hint Extern 1 (preserves _ (set__synced _)) => untouched : frame.
#[local] Hint Extern 1 (preserves _ (set_socketConnected _)) => untouched : frame.
#[local] Hint Extern 1 (preserves _ (set_docListening _)) => untouched : frame.
#[local] Hint Extern 1 (preserves _ (set_awarenessListening _)) => untouched : frame.
#[local] Hint Extern 1 (preserves _ (set_pendingUpdates _)) => untouched : frame.
#[local] Hint Extern 1 (preserves _ (set_doc _)) => untouched : frame.
#[local] Hint Extern 2 (extendsTrace (set_awareness _)) =>
  apply extendsTrace_preserved; untouched : frame.
#[local] Hint Extern 2 (extendsTrace (set_bcconnected _)) =>
  apply extendsTrace_preserved; untouched : frame.
#[local] Hint Extern 2 (extendsTrace (set_socketConnected _)) =>
  apply extendsTrace_preserved; untouched : frame.

Lemma awarenessUpdate_unfold change :
  awarenessUpdate change
  = (fun p =>
       (effect (Socket_emit_awareness_update
          (encodeAwarenessUpdate (awareness p)
             (added change ++ updated change ++ removed change))) >>>
        when bcconnected
          (effect (Bc_publish (BcAwarenessUpdate
             (encodeAwarenessUpdate (awareness p)
                (added change ++ updated change ++ removed change)))))) p).
Proof. reflexivity. Qed.

Lemma preserves_awarenessUpdate {A} (f : Provider -> A) change :
  (forall e, preserves f (effect e)) -> preserves f (awarenessUpdate change).
Proof.
  intros H. rewrite awarenessUpdate_unfold.
  apply (preserves_read f (fun p => awareness p)
           (fun a => effect (Socket_emit_awareness_update
                       (encodeAwarenessUpdate a
                          (added change ++ updated change ++ removed change))) >>>
                     when bcconnected
                       (effect (Bc_publish (BcAwarenessUpdate
                          (encodeAwarenessUpdate a
                             (added change ++ updated change ++ removed change))))))).
  intros a. auto with frame.
Qed.

Lemma extendsTrace_awarenessUpdate change : extendsTrace (awarenessUpdate change).
Proof.
  rewrite awarenessUpdate_unfold.
  apply (extendsTrace_read (fun p => awareness p)
           (fun a => effect (Socket_emit_awareness_update
                       (encodeAwarenessUpdate a
                          (added change ++ updated change ++ removed change))) >>>
                     when bcconnected
                       (effect (Bc_publish (BcAwarenessUpdate
                          (encodeAwarenessUpdate a
                             (added change ++ updated change ++ removed change))))))).
  intros a. auto with frame.
Qed.

(** [removeStates] on any reading that neither an effect nor the awareness
    assignment changes. *)
Lemma preserves_removeStates {A} (f : Provider -> A) clients :
  (forall e, preserves f (effect e)) -> (forall a, preserves f (set_awareness a)) ->
  preserves f (removeStates clients).
Proof.
  intros He Ha p. unfold removeStates.
  destruct (removeAwarenessStates (awareness p) clients) as [a [c|]].
  - apply (preserves_andThen f (set_awareness a)
             (when awarenessListening (awarenessUpdate c))); [apply Ha|].
    apply preserves_when, preserves_awarenessUpdate, He.
  - apply Ha.
Qed.

Lemma extendsTrace_removeStates clients : extendsTrace (removeStates clients).
Proof.
  intros p. unfold removeStates.
  destruct (removeAwarenessStates (awareness p) clients) as [a [c|]].
  - apply (extendsTrace_andThen (set_awareness a)
             (when awarenessListening (awarenessUpdate c))); [auto with frame|].
    apply extendsTrace_when, extendsTrace_awarenessUpdate.
  - exists []. by rewrite app_nil_r.
Qed.

Lemma removeStates_awareness clients p :
  awareness (removeStates clients p) = (removeAwarenessStates (awareness p) clients).1.
Proof.
  unfold removeStates.
  destruct (removeAwarenessStates (awareness p) clients) as [a [c|]]; [|reflexivity].
  cbn [fst]. transitivity (awareness (set_awareness a p)); [|reflexivity].
  apply (preserves_when awareness), preserves_awarenessUpdate. untouched.
Qed.

Lemma set_synced_synced b p : _synced (set_synced b p) = b.
Proof.
  unfold set_synced. destruct (_synced p) eqn:E, b; cbn; reflexivity || exact E.
Qed.

(** *** The awareness store on disconnection *)

Lemma filter_agree {A} (P Q : A -> Prop) `{!∀ x, Decision (P x)} `{!∀ x, Decision (Q x)}
    (l : list A) :
  (∀ x, x ∈ l -> (P x <-> Q x)) -> filter P l = filter Q l.
Proof.
  induction l as [|x l IH]; intros Hall; [reflexivity|].
  rewrite !filter_cons.
  assert (Hl : ∀ y, y ∈ l -> (P y <-> Q y)).
  { intros y Hy. apply Hall. by right. }
  rewrite (IH Hl).
  assert (Hx : P x <-> Q x) by (apply Hall; by left).
  destruct (decide (P x)) as [HP|HP], (decide (Q x)) as [HQ|HQ]; tauto || reflexivity.
Qed.

(** The loop deletes the states of the listed clients and no other. *)
Lemma removeLoop_states clients a acc :
  states (removeLoop clients a acc).1
  = filter (fun e => e.1 ∉ clients) (states a).
Proof.
  revert a acc. induction clients as [|c rest IH]; intros a acc.
  - cbn. symmetry. induction (states a) as [|e l IHl]; [done|].
    rewrite filter_cons. case_decide as N.
    + f_equal. exact IHl.
    + exfalso. eapply not_elem_of_nil, N.
  - cbn. destruct (has a c) eqn:Hc; rewrite IH; cbn.
    + unfold deleteState. rewrite list_filter_filter.
      apply filter_agree. intros e _. cbv beta. rewrite not_elem_of_cons. tauto.
    + apply filter_agree. intros e He. cbv beta. rewrite not_elem_of_cons.
      split; [intros Hr; split; [|done]|tauto].
      intros Heq. unfold has in Hc. apply bool_decide_eq_false in Hc.
      apply Hc. apply list_elem_of_fmap. by exists e.
Qed.

Lemma removeAwarenessStates_states a clients :
  states (removeAwarenessStates a clients).1
  = filter (fun e => e.1 ∉ clients) (states a).
Proof.
  unfold removeAwarenessStates.
  rewrite <- (removeLoop_states clients a []).
  by destruct (removeLoop clients a []).
Qed.

(** C6. On disconnection the provider emits ['connection-close'] first,
    has [synced] false afterwards, keeps in its awareness store exactly the
    entries whose client id is its document's client id (every other entry
    is removed, its own is left as it was), and emits the status
    [disconnected] last. *)
Theorem disconnection_removes_every_other_client (p : Provider) (reason : string) :
  states (awareness (onSocketDisconnection reason p))
  = filter (fun e => e.1 = docClientID p) (states (awareness p))
  /\ _synced (onSocketDisconnection reason p) = false
  /\ ∃ between,
      trace (onSocketDisconnection reason p)
      = trace p ++ Emit_connection_close reason :: between ++ [Emit_status disconnected].
Proof.
  unfold onSocketDisconnection, andThen.
  set (p0 := effect (Emit_connection_close reason) p).
  set (p1 := set_synced false p0).
  set (clients := filter (fun client => client ≠ docClientID p1) (keys (awareness p1))).
  assert (Ha : awareness p1 = awareness p).
  { subst p1 p0. rewrite preserves_set_synced; [reflexivity | untouched | untouched]. }
  assert (Hc : docClientID p1 = docClientID p).
  { subst p1 p0. rewrite preserves_set_synced; [reflexivity | untouched | untouched]. }
  split; [|split].
  - change (states (awareness (removeStates clients p1))
            = filter (fun e => e.1 = docClientID p) (states (awareness p))).
    rewrite removeStates_awareness, removeAwarenessStates_states, Ha.
    apply filter_agree. intros e He. cbv beta. subst clients.
    rewrite list_elem_of_filter, Hc, Ha.
    split.
    + intros N. destruct (decide (e.1 = docClientID p)) as [|Hne]; [done|].
      exfalso. apply N. split; [done|]. unfold keys. apply list_elem_of_fmap. by exists e.
    + intros Heq [Hne _]. by apply Hne.
  - change (_synced (removeStates clients p1) = false).
    rewrite preserves_removeStates; [|untouched|untouched].
    apply set_synced_synced.
  - destruct (extendsTrace_set_synced false p0) as [t1 E1].
    destruct (extendsTrace_removeStates clients p1) as [t2 E2].
    exists (t1 ++ t2).
    change (trace (removeStates clients p1) ++ [Emit_status disconnected]
            = trace p ++ Emit_connection_close reason :: (t1 ++ t2) ++ [Emit_status disconnected]).
    rewrite E2. subst p1. rewrite E1. subst p0. cbn.
    by rewrite <- !app_assoc.
Qed.

(** *** Timers *)

Section Disconnecting.

Context {A : Type} (f : Provider -> A).
Hypothesis f_effect : forall e, preserves f (effect e).
Hypothesis f_awareness : forall a, preserves f (set_awareness a).
Hypothesis f_synced : forall b, preserves f (set__synced b).
Hypothesis f_bcconnected : forall b, preserves f (set_bcconnected b).
Hypothesis f_socketConnected : forall b, preserves f (set_socketConnected b).

Lemma preserves_onSocketDisconnection reason :
  preserves f (onSocketDisconnection reason).
Proof using f_effect f_awareness f_synced.
  unfold onSocketDisconnection.
  apply preserves_andThen; [apply f_effect|].
  apply preserves_andThen; [apply preserves_set_synced; [apply f_effect|apply f_synced]|].
  apply preserves_andThen; [|apply f_effect].
  apply (preserves_read f
           (fun p => filter (fun client => client ≠ docClientID p) (keys (awareness p)))
           removeStates).
  intros clients. apply preserves_removeStates; [apply f_effect|apply f_awareness].
Qed.

Lemma preserves_disconnect : preserves f disconnect.
Proof using All.
  unfold disconnect, disconnectBc, socketDisconnect.
  apply preserves_when, preserves_andThen; apply preserves_andThen.
  - apply (preserves_read f
             (fun p => Bc_publish (BcAwarenessUpdate
                         (encodeAwarenessRemoval (awareness p) [docClientID p]))) effect).
    exact f_effect.
  - apply preserves_when, preserves_andThen; [apply f_effect|apply f_bcconnected].
  - apply f_effect.
  - apply preserves_when, preserves_andThen; [apply f_socketConnected|].
    apply preserves_onSocketDisconnection.
Qed.

End Disconnecting.

Lemma preserves_after_clearing {A} (f : Provider -> A) :
  (forall e, preserves f (effect e)) ->
  (forall a, preserves f (set_awareness a)) ->
  (forall b, preserves f (set__synced b)) ->
  (forall b, preserves f (set_bcconnected b)) ->
  (forall b, preserves f (set_socketConnected b)) ->
  (forall b, preserves f (set_docListening b)) ->
  (forall b, preserves f (set_awarenessListening b)) ->
  preserves f (disconnect >>> effect Remove_unload_listener >>>
               set_awarenessListening false >>> awarenessDestroy >>>
               set_docListening false >>> effect Observable_destroy).
Proof.
  intros He Ha Hs Hb Hc Hd Hl.
  apply preserves_andThen; [by apply preserves_disconnect|].
  apply preserves_andThen; [apply He|].
  apply preserves_andThen; [apply Hl|].
  apply preserves_andThen; [|apply preserves_andThen; [apply Hd|apply He]].
  intros p. apply (Ha (clearLocalState (awareness p)) p).
Qed.

Lemma keepsTimers_after_clearing :
  keepsTimers (disconnect >>> effect Remove_unload_listener >>>
               set_awarenessListening false >>> awarenessDestroy >>>
               set_docListening false >>> effect Observable_destroy).
Proof. repeat split; apply preserves_after_clearing; untouched. Qed.



(** *** Debouncing *)

(** C1, evaluated on the code. With a debounce window configured, each of
    three local edits made while the timer is armed is sent to the socket at
    once, and when the timer fires their merge is sent as well: four
    transmissions, not one; [onPending(true)] is called for the second and
    third edit only, and the buffer still holds the three edits after the
    flush. With no debounce window an edit is not sent by [onUpdateDoc]: it
    is buffered, a timer with no delay is armed, and the edit leaves when
    that timer fires. *)
Theorem debounce_transmits_each_edit_and_the_merge
    (d : Y.Doc) (cid : nat) (a : Awareness) (resync : Z) (noBc : bool)
    (w : nat) (e1 e2 e3 : Y.Update) (tag : string) :
  let o := OtherOrigin tag in
  let p3 := onUpdateDoc e3 o (onUpdateDoc e2 o (onUpdateDoc e1 o
              (newProvider d cid a resync noBc (Some w) true))) in
  let q1 := onUpdateDoc e1 o (newProvider d cid a resync noBc None true) in
  transmitted (trace p3) = [e1; e2; e3]
  /\ timers p3 = {[2 := FlushPending o (Some w)]}
  /\ transmitted (trace (fireTimer 2 p3)) = [e1; e2; e3; Y.mergeUpdates [e1; e2; e3]]
  /\ pendingCalls (trace (fireTimer 2 p3)) = [true; true; false]
  /\ pendingUpdates (fireTimer 2 p3) = [e1; e2; e3]
  /\ transmitted (trace q1) = []
  /\ timers q1 = {[0 := FlushPending o None]}
  /\ transmitted (trace (fireTimer 0 q1)) = [Y.mergeUpdates [e1]].
Proof. repeat split; vm_compute; reflexivity. Qed.

End ProviderProperties.

(** * Joining a room *)

Section JoinProperties.

Import Client.

Context `{R : Y.Replica}.

(** C5. When the [authenticate] callback resolves to false, the middleware
    refuses the join with the error [Unauthorized]; the provider that made
    the attempt emits ['connection-error'] with that message, emits no
    status [connected] in the attempt, and its socket is not connected
    afterwards. *)
Theorem refused_join_surfaces_as_connection_error
    (s : Server.YSocketIO) (f : gmap string string -> Server.AuthOutcome)
    (handshake : gmap string string) (p : Provider) :
  Server.authenticate s = Some f ->
  f handshake = Server.AuthResolves false ->
  socketConnected p = false ->
  Server.authMiddleware s handshake = Some (Server.NextError "Unauthorized")
  /\ trace (Transport.attempt s handshake p)
     = trace (connect p) ++ [Emit_connection_error "Unauthorized"]
  /\ (exists t, trace (Transport.attempt s handshake p) = trace p ++ t
                /\ Emit_status connected ∉ t)
  /\ socketConnected (Transport.attempt s handshake p) = false.
Proof.
  intros Hauth Hf Hsock.
  assert (Hm : Server.authMiddleware s handshake
               = Some (Server.NextError "Unauthorized")).
  { unfold Server.authMiddleware. by rewrite Hauth, Hf. }
  unfold Transport.attempt. rewrite Hm. cbn [Transport.joinReply foldl onSocketEvent].
  split; [reflexivity|]. split; [reflexivity|].
  destruct p as [? ? ? ? ? ? ? noBc bc sy ? ? sc ? ? ? ? tr].
  cbn in Hsock. subst sc. unfold onSocketConnectionError, connect, connectBc, set_synced.
  split.
  - destruct noBc, bc, sy; provider_run; eexists;
      (split; [rewrite <- ?app_assoc; reflexivity|]);
      cbn [app]; rewrite ?not_elem_of_cons; repeat split;
      try discriminate; apply not_elem_of_nil.
  - destruct noBc, bc, sy; provider_run; reflexivity.
Qed.

End JoinProperties.

(** * Properties of the server *)

(** Unfolding of the monad and of the record updates. *)
Ltac server_run :=
  cbv [Server.bind Server.ret Server.gets Server.modify Server.effect
       Server.throw Server.tryCatch Server.warn Server.getDoc Server.updateDoc
       Server.returnOrThrow Server.set__documents Server.set_heap Server.set_ldb
       Server.set_sockets Server.set_bound Server.set_trace
       Server.set_gc Server.set_ydoc Server.set_updateListeners
       Server.set_awarenessListening Server.set_destroyed
       Server._documents Server.heap Server.nextRef Server.persistence
       Server.ldb Server.authenticate Server.gcEnabled Server.envGc
       Server.sockets Server.bound Server.trace
       Server.name Server.namespace Server.localOnly Server.callbacks
       Server.gc Server.ydoc Server.awareness Server.updateListeners
       Server.awarenessListening Server.destroyed
       Server.onUpdate Server.onChangeAwareness Server.onDestroy
       mbind option_bind].

Section DocumentProperties.

Import AwarenessProtocol Server.

Context `{R : Y.Replica}.

(** *** Callbacks that throw *)


(** *** What an update event changes *)

(** [onUpdateDoc] never throws and only adds to the trace. *)
Lemma onUpdateDoc_trace_only (d : nat) (u : Y.Update) (s : YSocketIO) :
  exists t, onUpdateDoc d u s = (Returned tt, set_trace (trace s ++ t) s).
Proof.
  destruct s as [docs hp nx pe db au gce eg so bo tr].
  unfold onUpdateDoc. server_run.
  destruct (hp !! d) as [[nm nsp lo cb g yd aw ul al de]|]; server_run;
    [|exists []; by rewrite app_nil_r].
  destruct cb as [[[[f|]|] oa od]|]; server_run; unfold callOnUpdate; server_run;
    try destruct (f d u); destruct (isLocalOnly lo); server_run;
    eexists; rewrite <- ?app_assoc; reflexivity.
Qed.

Lemma storeUpdate_eq (n : string) (u : Y.Update) (s : YSocketIO) :
  storeUpdate n u s = (Returned tt, set_ldb (<[n := stored s n ++ [u]]> (ldb s)) s).
Proof. reflexivity. Qed.

(** A listener of the ['update'] event never throws and changes the store
    and the trace only. *)
Lemma runUpdateListener_frame (d : nat) (u : Y.Update) (l : UpdateListener) (s : YSocketIO) :
  exists db t, runUpdateListener d u l s = (Returned tt, set_trace t (set_ldb db s)).
Proof.
  destruct l as [|n]; cbn [runUpdateListener].
  - destruct (onUpdateDoc_trace_only d u s) as [t ->].
    exists (ldb s), (trace s ++ t). reflexivity.
  - rewrite storeUpdate_eq.
    exists (<[n := stored s n ++ [u]]> (ldb s)), (trace s). reflexivity.
Qed.

Lemma forEach_listeners_frame (d : nat) (u : Y.Update) (ls : list UpdateListener)
    (s : YSocketIO) :
  exists db t,
    forEach (runUpdateListener d u) ls s = (Returned tt, set_trace t (set_ldb db s)).
Proof.
  revert s. induction ls as [|l ls IH]; intros s.
  - exists (ldb s), (trace s). reflexivity.
  - cbn [forEach]. unfold bind at 1.
    destruct (runUpdateListener_frame d u l s) as (db1 & t1 & ->).
    destruct (IH (set_trace t1 (set_ldb db1 s))) as (db2 & t2 & ->).
    exists db2, t2. reflexivity.
Qed.

Lemma emitUpdate_frame (d : nat) (u : Y.Update) (s : YSocketIO) :
  exists db t, emitUpdate d u s = (Returned tt, set_trace t (set_ldb db s)).
Proof.
  unfold emitUpdate, bind at 1, getDoc, gets.
  destruct (heap s !! d) as [doc|].
  - apply forEach_listeners_frame.
  - exists (ldb s), (trace s). reflexivity.
Qed.

Lemma applyUpdate_frame (d : nat) (u : Y.Update) (s : YSocketIO) :
  exists hp db t,
    applyUpdate d u s
    = (Returned tt, set_trace t (set_ldb db (set_heap hp (nextRef s) s)))
    /\ hp = match heap s !! d with
            | Some doc => alter (set_ydoc (Y.applyUpdate (ydoc doc) u)) d (heap s)
            | None => heap s
            end.
Proof.
  unfold applyUpdate, bind at 1, getDoc, gets.
  destruct (heap s !! d) as [doc|];
    [|exists (heap s), (ldb s), (trace s); split; reflexivity].
  unfold bind at 1, updateDoc, modify.
  destruct (Y.updateEvent (ydoc doc) u) as [u'|].
  - match goal with |- context [emitUpdate d u' ?s1] =>
      destruct (emitUpdate_frame d u' s1) as (db & t & ->) end.
    exists (alter (set_ydoc (Y.applyUpdate (ydoc doc) u)) d (heap s)), db, t.
    split; reflexivity.
  - exists (alter (set_ydoc (Y.applyUpdate (ydoc doc) u)) d (heap s)), (ldb s), (trace s).
    split; reflexivity.
Qed.

(** With the hook of [bindState] in place, an update event appends its
    update to the store under the bound name, and leaves the documents as
    they are. *)
Lemma emitUpdate_hooked (d : nat) (n : string) (doc : Document) (u : Y.Update)
    (s : YSocketIO) :
  heap s !! d = Some doc ->
  updateListeners doc = [OnUpdateDoc; StoreUpdate n] ->
  exists t,
    emitUpdate d u s
    = (Returned tt, set_trace t (set_ldb (<[n := stored s n ++ [u]]> (ldb s)) s)).
Proof.
  intros Hheap Hls.
  unfold emitUpdate, bind at 1, getDoc, gets. rewrite Hheap, Hls.
  cbn [forEach runUpdateListener]. unfold bind at 1.
  destruct (onUpdateDoc_trace_only d u s) as [t ->].
  unfold bind at 1. rewrite storeUpdate_eq. eexists. reflexivity.
Qed.

Lemma forEach_emitUpdate_hooked (d : nat) (n : string) (doc : Document)
    (us : list Y.Update) (s : YSocketIO) :
  heap s !! d = Some doc ->
  updateListeners doc = [OnUpdateDoc; StoreUpdate n] ->
  exists s',
    forEach (emitUpdate d) us s = (Returned tt, s')
    /\ heap s' = heap s
    /\ stored s' n = stored s n ++ us.
Proof.
  intros Hheap Hls. revert s Hheap.
  induction us as [|u us IH]; intros s Hheap.
  - exists s. rewrite app_nil_r. repeat split; reflexivity.
  - cbn [forEach]. unfold bind at 1.
    destruct (emitUpdate_hooked d n doc u s Hheap Hls) as [t ->].
    set (s1 := set_trace t (set_ldb (<[n := stored s n ++ [u]]> (ldb s)) s)).
    destruct (IH s1 Hheap) as (s' & -> & Hh & Hst).
    exists s'. split; [done|]. split; [done|].
    rewrite Hst. unfold stored at 1. subst s1. cbn.
    rewrite lookup_insert_eq. cbn. by rewrite <- app_assoc.
Qed.

(** *** Binding a document to the store *)

(** C4. [bindState], before it returns, reads what the store holds under
    the name and applies it to the document (a, b), writes to the store what
    the document held before (c), and registers a listener through which
    every later update event of the document is appended to the store (d).
    The document is one no hook was bound to yet, as the constructor leaves
    it. *)
Theorem bindState_loads_reconciles_and_hooks
    (s : YSocketIO) (docName : string) (d : nat) (doc : Document) :
  heap s !! d = Some doc ->
  updateListeners doc = [OnUpdateDoc] ->
  exists s',
    bindState docName d s = (Returned tt, s')
    /\ heap s' !! d
       = Some (set_updateListeners [OnUpdateDoc; StoreUpdate docName]
                 (set_ydoc (Y.applyUpdate (ydoc doc)
                              (Y.encodeStateAsUpdate (replay (stored s docName)) None))
                    doc))
    /\ stored s' docName = stored s docName ++ [Y.encodeStateAsUpdate (ydoc doc) None]
    /\ forall us, exists s'',
         forEach (emitUpdate d) us s' = (Returned tt, s'')
         /\ stored s'' docName = stored s' docName ++ us.
Proof.
  intros Hheap Hls.
  assert (Hrun : exists t,
    bindState docName d s
    = (Returned tt,
       set_trace t
         (set_heap
            (alter (fun doc' => set_updateListeners
                                  (updateListeners doc' ++ [StoreUpdate docName]) doc') d
               (alter (set_ydoc (Y.applyUpdate (ydoc doc)
                         (Y.encodeStateAsUpdate (replay (stored s docName)) None))) d
                  (heap s)))
            (nextRef s)
            (set_ldb (<[docName := stored s docName
                                   ++ [Y.encodeStateAsUpdate (ydoc doc) None]]> (ldb s))
               s)))).
  { unfold bindState, bindState_getYDoc, getYDoc, bindState_storeUpdate,
      bindState_applyUpdate, applyUpdate, emitUpdate.
    destruct s as [docs hp nx pe db au gce eg so bo tr].
    destruct doc as [nm nsp lo cb g yd aw ul al de].
    cbn in Hheap, Hls. subst ul. server_run. rewrite Hheap. server_run.
    unfold storeUpdate. server_run. rewrite Hheap. server_run.
    match goal with |- context [Y.updateEvent yd ?u] =>
      destruct (Y.updateEvent yd u) as [u'|] end; server_run.
    - rewrite lookup_alter_eq, Hheap. cbn [fmap option_fmap option_map].
      server_run. cbn [forEach runUpdateListener]. server_run.
      match goal with |- context [onUpdateDoc d u' ?s1] =>
        destruct (onUpdateDoc_trace_only d u' s1) as [t ->] end.
      server_run. by eexists.
    - by eexists. }
  destruct Hrun as [t Hrun]. eexists. split; [exact Hrun|].
  assert (Hdoc : heap
    (set_trace t
       (set_heap
          (alter (fun doc' => set_updateListeners
                                (updateListeners doc' ++ [StoreUpdate docName]) doc') d
             (alter (set_ydoc (Y.applyUpdate (ydoc doc)
                       (Y.encodeStateAsUpdate (replay (stored s docName)) None))) d
                (heap s)))
          (nextRef s)
          (set_ldb (<[docName := stored s docName
                                 ++ [Y.encodeStateAsUpdate (ydoc doc) None]]> (ldb s))
             s))) !! d
    = Some (set_updateListeners [OnUpdateDoc; StoreUpdate docName]
              (set_ydoc (Y.applyUpdate (ydoc doc)
                           (Y.encodeStateAsUpdate (replay (stored s docName)) None))
                 doc))).
  { cbn. rewrite !lookup_alter_eq, Hheap. cbn. by rewrite Hls. }
  split; [exact Hdoc|]. split.
  - unfold stored at 1. cbn. by rewrite lookup_insert_eq.
  - intros us.
    destruct (forEach_emitUpdate_hooked d docName _ us _ Hdoc eq_refl)
      as (s'' & Hs'' & _ & Hst).
    by exists s''.
Qed.

(** *** The last peer leaves *)

(** [destroy] on a document, whatever its callbacks: it never throws, the
    document ends destroyed with no listener attached, the sockets of its
    namespace are disconnected last. *)
Lemma destroy_spec (s : YSocketIO) (d : nat) (doc : Document) :
  heap s !! d = Some doc ->
  exists s' t,
    destroy d s = (Returned tt, s')
    /\ trace s' = trace s ++ t
    /\ last t = Some (Namespace_disconnectSockets (namespace doc))
    /\ heap s' !! d
       = Some (set_destroyed true (set_updateListeners []
                 (set_awarenessListening false doc)))
    /\ socketsOf s' (namespace doc) = ∅.
Proof.
  intros Hheap.
  destruct s as [docs hp nx pe db au gce eg so bo tr].
  destruct doc as [nm nsp lo cb g yd aw ul al de].
  cbn in Hheap.
  unfold destroy. server_run. rewrite Hheap. server_run.
  unfold disconnectSockets, superDestroy, socketsOf.
  destruct cb as [[ou oa [[f|]|]]|]; server_run; unfold callOnDestroy; server_run;
    rewrite ?Hheap; server_run; unfold documents_delete; server_run;
    try destruct (f d); server_run;
    rewrite <- ?app_assoc;
    eexists _, _; (split; [reflexivity|]); server_run;
    rewrite !lookup_alter_eq, Hheap, lookup_insert_eq;
    repeat split; reflexivity.
Qed.


(** *** Creating the document of a room *)

Section InitDocument.

Variables (docName nsp : string) (gc : bool).

Ltac step_facts :=
  cbn; repeat split; try (left; lia); try done; try (by left);
  try (intros ? [= ->]; reflexivity);
  try (intros _ Hd; by destruct (_documents _ !! _));
  try (right; by eexists);
  try (intros _ _; rewrite lookup_insert_eq; by eexists);
  try (intros H _; by apply H).

(** One stretch of [initDocument] never throws; it shortens what is left;
    it changes the controller, if at all, by registering the document in
    hand under the room; it keeps the document in hand; the first stretch
    takes in hand what the controller holds. *)
Lemma initDocumentStep_spec (pc : InitDocument) (s : YSocketIO) :
  exists pc' s',
    initDocumentStep docName nsp gc pc s = (Returned pc', s')
    /\ (remaining pc' < remaining pc \/ (remaining pc = 0 /\ pc' = pc))
    /\ (_documents s' = _documents s
        \/ exists doc, inHand pc' = Some doc
                       /\ _documents s' = <[docName := doc]> (_documents s))
    /\ (forall d, inHand pc = Some d -> inHand pc' = Some d)
    /\ (pc = Init_start -> inHand pc' = _documents s !! docName)
    /\ (taskOk docName pc s -> taskOk docName pc' s').
Proof.
  unfold taskOk.
  destruct pc as [|found|doc ex|doc per|doc per|doc|doc|doc]; cbn [initDocumentStep].
  - eexists _, s. split; [reflexivity|]. step_facts.
  - destruct found as [d|]; (eexists _, _; split; [reflexivity|]); step_facts.
  - destruct ex; [eexists _, s; split; [reflexivity|]; step_facts|].
    destruct s as [docs hp nx pe db au gce eg so bo tr].
    destruct pe; (eexists _, _; split; [reflexivity|]); step_facts.
  - destruct s as [docs hp nx pe db au gce eg so bo tr].
    unfold bindState_storeUpdate. server_run.
    destruct (hp !! doc) as [document|];
      (eexists _, _; split; [reflexivity|]); step_facts.
  - unfold bindState_applyUpdate, bind at 1, bind at 1.
    destruct (applyUpdate_frame doc (Y.encodeStateAsUpdate per None) s)
      as (hp & db & t & -> & _).
    eexists _, _. split; [reflexivity|]. step_facts.
  - eexists _, _. split; [reflexivity|]. step_facts.
  - eexists _, _. split; [reflexivity|]. step_facts.
  - eexists _, s. split; [reflexivity|]. step_facts.
Qed.

Lemma initDocumentTurn_spec (first : bool) (pcs : InitDocument * InitDocument)
    (s : YSocketIO) :
  raceInvariant docName pcs s ->
  exists pcs' s',
    initDocumentTurn docName nsp gc first pcs s = (Returned pcs', s')
    /\ raceInvariant docName pcs' s'
    /\ remaining pcs'.1 <= remaining pcs.1 - (if first then 1 else 0)
    /\ remaining pcs'.2 <= remaining pcs.2 - (if first then 0 else 1).
Proof.
  destruct pcs as [pc1 pc2]. intros (Hok1 & Hok2 & Hreg). cbn [fst snd] in *.
  assert (Hkeep : forall s' doc,
    _documents s' = _documents s \/ _documents s' = <[docName := doc]> (_documents s) ->
    forall pc, taskOk docName pc s -> taskOk docName pc s').
  { intros s' doc Hd pc Hpc Hset. unfold taskOk in Hpc.
    destruct Hd as [Hd|Hd]; rewrite Hd; [by apply Hpc|].
    rewrite lookup_insert_eq. by eexists. }
  destruct first; unfold initDocumentTurn, bind at 1; cbn [fst snd].
  - destruct (initDocumentStep_spec pc1 s)
      as (pc1' & s' & -> & Hrem & Hdocs & Hhand & Hstart & Hok).
    exists (pc1', pc2), s'. unfold raceInvariant. cbn [fst snd]. split; [reflexivity|].
    split; [|split; [destruct Hrem as [?|[? ->]]|]; lia].
    split; [by apply Hok|]. split.
    + destruct Hdocs as [Hsame|(doc & _ & Hins)]; eapply (Hkeep s' _); eauto.
      Unshelve. exact 0.
    + intros d Hd. destruct Hdocs as [Hsame|(doc & Hdoc & Hins)].
      * rewrite Hsame in Hd. destruct (Hreg d Hd) as [[->|Hin]|H2]; [| |by right].
        -- left. right. by rewrite Hstart.
        -- left. right. by apply Hhand.
      * rewrite Hins, lookup_insert_eq in Hd. injection Hd as <-. left. by right.
  - destruct (initDocumentStep_spec pc2 s)
      as (pc2' & s' & -> & Hrem & Hdocs & Hhand & Hstart & Hok).
    exists (pc1, pc2'), s'. unfold raceInvariant. cbn [fst snd]. split; [reflexivity|].
    split; [|split; [|destruct Hrem as [?|[? ->]]]; lia].
    split; [|split; [by apply Hok|]].
    + destruct Hdocs as [Hsame|(doc & _ & Hins)]; eapply (Hkeep s' _); eauto.
      Unshelve. exact 0.
    + intros d Hd. destruct Hdocs as [Hsame|(doc & Hdoc & Hins)].
      * rewrite Hsame in Hd. destruct (Hreg d Hd) as [H1|[->|Hin]]; [by left| |].
        -- right. right. by rewrite Hstart.
        -- right. right. by apply Hhand.
      * rewrite Hins, lookup_insert_eq in Hd. injection Hd as <-. right. by right.
Qed.

Lemma turns_cons (who b : bool) (schedule : list bool) :
  turns who (b :: schedule)
  = (if eqb b who then 1 else 0) + turns who schedule.
Proof.
  unfold turns. rewrite filter_cons. destruct b, who; reflexivity.
Qed.

(** Any interleaving of two calls keeps the invariant, and each call is as
    many stretches closer to its [return] as the schedule gave it turns. *)
Lemma initDocumentRace_spec (schedule : list bool) (pcs : InitDocument * InitDocument)
    (s : YSocketIO) :
  raceInvariant docName pcs s ->
  exists pcs' s',
    initDocumentRace schedule docName nsp gc pcs s = (Returned pcs', s')
    /\ raceInvariant docName pcs' s'
    /\ remaining pcs'.1 <= remaining pcs.1 - turns true schedule
    /\ remaining pcs'.2 <= remaining pcs.2 - turns false schedule.
Proof.
  revert pcs s. induction schedule as [|b schedule IH]; intros pcs s Hinv.
  - exists pcs, s. split; [reflexivity|]. split; [exact Hinv|]. cbn. lia.
  - cbn [initDocumentRace]. unfold bind at 1.
    destruct (initDocumentTurn_spec b pcs s Hinv) as (pcs1 & s1 & -> & Hinv1 & Hr1 & Hr2).
    destruct (IH pcs1 s1 Hinv1) as (pcs2 & s2 & -> & Hinv2 & Hr1' & Hr2').
    exists pcs2, s2. split; [reflexivity|]. split; [exact Hinv2|].
    rewrite !turns_cons. destruct b; cbn in *; lia.
Qed.

Lemma remaining_0 (pc : InitDocument) :
  remaining pc = 0 -> exists d, pc = Init_return d.
Proof. destruct pc; cbn; try discriminate. by eexists. Qed.

Ltac init_run :=
  cbv [initDocument initDocumentRun initDocumentStep documents_get
       documents_has documents_set returned defined newDocument
       bindState_getYDoc getYDoc bindState_storeUpdate storeUpdate];
  server_run.

(** A room that is registered: [initDocument] returns the registered
    document and changes only its [gc] flag. *)
Lemma initDocument_registered (s : YSocketIO) (d : nat) :
  _documents s !! docName = Some d ->
  initDocument docName nsp gc s
  = (Returned (Some d), set_heap (alter (set_gc gc) d (heap s)) (nextRef s) s).
Proof.
  intros Hreg. destruct s as [docs hp nx pe db au gce eg so bo tr].
  cbn in Hreg. init_run. rewrite Hreg. init_run. rewrite Hreg. reflexivity.
Qed.

(** A room that is not registered: [initDocument] builds one document,
    registers it and returns it. *)
Lemma initDocument_first (s : YSocketIO) :
  _documents s !! docName = None ->
  exists s',
    initDocument docName nsp gc s = (Returned (Some (nextRef s)), s')
    /\ _documents s' !! docName = Some (nextRef s)
    /\ nextRef s' = S (nextRef s).
Proof.
  intros Hreg. destruct s as [docs hp nx pe db au gce eg so bo tr].
  cbn in Hreg. unfold initDocument. cbn [initDocumentRun].
  unfold bind at 1. cbn [initDocumentStep]. unfold documents_get. server_run.
  rewrite Hreg. cbn [initDocumentStep]. unfold newDocument, documents_has.
  server_run. rewrite Hreg. cbn [defined initDocumentStep]. server_run.
  destruct pe.
  - unfold bindState_getYDoc, getYDoc. server_run. cbn [initDocumentStep].
    unfold bindState_storeUpdate, storeUpdate. server_run.
    rewrite lookup_alter_eq, lookup_insert_eq. cbn [fmap option_fmap option_map].
    server_run. cbn [initDocumentStep]. unfold bindState_applyUpdate. server_run.
    match goal with |- context [applyUpdate ?d ?u ?s1] =>
      destruct (applyUpdate_frame d u s1) as (hp' & db' & t' & -> & _) end.
    server_run. cbn [initDocumentStep]. unfold documents_set. server_run.
    cbn [initDocumentStep]. server_run.
    eexists. split; [reflexivity|]. server_run.
    split; [apply lookup_insert_eq | reflexivity].
  - unfold documents_set. server_run. cbn [initDocumentStep]. server_run.
    eexists. split; [reflexivity|]. server_run.
    split; [apply lookup_insert_eq | reflexivity].
Qed.

End InitDocument.


End DocumentProperties.

(** * Runs of the server on the grow-only replica *)

Section ServerRuns.

Import AwarenessProtocol Server.

#[local] Existing Instance Y.GrowOnly.


(** The callbacks object of [initDocument] stands in the [localOnly]
    position of the constructor: the document it builds has no callbacks,
    so destroying it, as the last disconnection does when persistence is
    set, neither removes it from the controller nor emits
    ['document-destroy']. *)
Remark destroyed_document_stays_registered :
  (callbacks <$> heap (Examples.joined true) !! 0) = Some None
  /\ (destroyed <$> heap (Examples.emptied true) !! 0) = Some true
  /\ _documents (Examples.emptied true) !! "R" = Some 0
  /\ trace (Examples.emptied true)
     = trace (Examples.joined true)
       ++ [Emit_all_document_connections_closed 0; Persistence_writeState "R";
           Namespace_disconnectSockets "/yjs|R"].
Proof. repeat split; vm_compute; reflexivity. Qed.

(** Two first arrivals whose stretches alternate, with persistence set:
    each finds the room unregistered and builds its own document; the one
    registered last stays in the controller, and ['document-loaded'] is
    emitted for both. *)
Remark interleaved_first_arrivals_build_two_documents :
  let run := initDocumentRace Examples.alternating "R" "/yjs|R" true
               (Init_start, Init_start) (newYSocketIO true None None true) in
  run.1 = Returned (Init_return 0, Init_return 1)
  /\ _documents run.2 !! "R" = Some 1
  /\ nextRef run.2 = 2
  /\ trace run.2 = [Emit_document_loaded 0; Emit_document_loaded 1].
Proof. repeat split; vm_compute; reflexivity. Qed.

(** *** The theorems at work on concrete states *)



Lemma bindState_loads_reconciles_and_hooks_witness :
  exists s',
    bindState "R" 0 Examples.stocked = (Returned tt, s')
    /\ (ydoc (R := Y.GrowOnly) <$> heap s' !! 0) = Some [9; 1; 2; 3]
    /\ (updateListeners <$> heap s' !! 0) = Some [OnUpdateDoc; StoreUpdate "R"]
    /\ stored s' "R" = [[1; 2]; [2; 3]; [9]]
    /\ exists s'',
        forEach (emitUpdate 0) [[4]; [5]] s' = (Returned tt, s'')
        /\ stored s'' "R" = [[1; 2]; [2; 3]; [9]; [4]; [5]].
Proof.
  destruct (bindState_loads_reconciles_and_hooks Examples.stocked "R" 0
              (set_ydoc (R := Y.GrowOnly) [9] Examples.hookedDocument))
    as (s' & Hrun & Hdoc & Hstore & Hhook); [vm_compute; reflexivity | reflexivity |].
  exists s'. split; [exact Hrun|].
  split; [by rewrite Hdoc|]. split; [by rewrite Hdoc|]. split; [exact Hstore|].
  destruct (Hhook [[4]; [5]]) as (s'' & Hemit & Hstored).
  exists s''. split; [exact Hemit|]. by rewrite Hstored, Hstore.
Defined.


Lemma refused_join_surfaces_as_connection_error_witness :
  authMiddleware Examples.guarded {["token" := "guess"]}
  = Some (NextError "Unauthorized")
  /\ Client.trace (Transport.attempt Examples.guarded {["token" := "guess"]}
                     Examples.debouncing)
     = Client.trace (Client.connect Examples.debouncing)
       ++ [Client.Emit_connection_error "Unauthorized"]
  /\ (exists t,
        Client.trace (Transport.attempt Examples.guarded {["token" := "guess"]}
                        Examples.debouncing)
        = Client.trace Examples.debouncing ++ t
        /\ Client.Emit_status Client.connected ∉ t)
  /\ Client.socketConnected
       (Transport.attempt Examples.guarded {["token" := "guess"]} Examples.debouncing)
     = false.
Proof.
  apply (refused_join_surfaces_as_connection_error Examples.guarded
           (fun handshake =>
              AuthResolves (bool_decide (handshake !! "token" = Some "valid-token")))
           {["token" := "guess"]} Examples.debouncing).
  - reflexivity.
  - vm_compute. reflexivity.
  - reflexivity.
Defined.

End ServerRuns.

(** * The url of a provider and the name of a room *)

Section UrlProperties.

Import Client.

Lemma append_cons (a : Ascii.ascii) (s t : string) :
  String a s +:+ t = String a (s +:+ t).
Proof. reflexivity. Qed.

Lemma append_nil_r (s : string) : s +:+ EmptyString = s.
Proof. induction s as [|a s IH]; [reflexivity|]. by rewrite append_cons, IH. Qed.

Lemma append_assoc (s t u : string) : (s +:+ t) +:+ u = s +:+ (t +:+ u).
Proof. induction s as [|a s IH]; [reflexivity|]. by rewrite !append_cons, IH. Qed.

Lemma length_append (s t : string) :
  String.length (s +:+ t) = String.length s + String.length t.
Proof. induction s as [|a s IH]; [reflexivity|]. rewrite append_cons. cbn. by rewrite IH. Qed.

Lemma slashes_snoc (k : nat) : slashes (S k) = slashes k +:+ String slash EmptyString.
Proof.
  induction k as [|k IH]; [reflexivity|].
  change (String slash (slashes (S k))
          = String slash (slashes k) +:+ String slash EmptyString).
  by rewrite append_cons, <- IH.
Qed.

Lemma length_slashes (k : nat) : String.length (slashes k) = k.
Proof. induction k as [|k IH]; simpl; [reflexivity|by rewrite IH]. Qed.

Lemma lastChar_cons (a b : Ascii.ascii) (s : string) :
  lastChar (String a (String b s)) = lastChar (String b s).
Proof. unfold lastChar. cbn. by rewrite Nat.sub_0_r. Qed.

(** [url.slice(0, url.length - 1)]. *)
Lemma slice_cons (a b : Ascii.ascii) (s : string) :
  String.substring 0 (String.length (String a (String b s)) - 1) (String a (String b s))
  = String a (String.substring 0 (String.length (String b s) - 1) (String b s)).
Proof. cbn. by rewrite Nat.sub_0_r. Qed.

Lemma lastChar_snoc (s : string) (c : Ascii.ascii) :
  lastChar (s +:+ String c EmptyString) = Some c.
Proof.
  induction s as [|a s IH]; [reflexivity|].
  destruct s as [|b s]; [reflexivity|].
  change (lastChar (String a (String b (s +:+ String c EmptyString))) = Some c).
  rewrite lastChar_cons. exact IH.
Qed.

Lemma slice_snoc (s : string) (c : Ascii.ascii) :
  String.substring 0 (String.length (s +:+ String c EmptyString) - 1)
    (s +:+ String c EmptyString) = s.
Proof.
  induction s as [|a s IH]; [reflexivity|].
  destruct s as [|b s]; [reflexivity|].
  change (String.substring 0
            (String.length (String a (String b (s +:+ String c EmptyString))) - 1)
            (String a (String b (s +:+ String c EmptyString))) = String a (String b s)).
  rewrite slice_cons. f_equal. exact IH.
Qed.

(** A string with a last character is what precedes it, and it. *)
Lemma lastChar_split (s : string) (c : Ascii.ascii) :
  lastChar s = Some c ->
  s = String.substring 0 (String.length s - 1) s +:+ String c EmptyString.
Proof.
  induction s as [|a s IH]; [discriminate|].
  destruct s as [|b s].
  - cbn. by intros [= ->].
  - rewrite lastChar_cons, slice_cons. intros Hc. rewrite append_cons.
    f_equal. by apply IH.
Qed.

(** The loop, given enough iterations, stops on a string without a trailing
    slash that the slashes it removed complete to the url. *)
Lemma trimLoop_spec (fuel : nat) (url : string) :
  String.length url <= fuel ->
  (exists k, url = trimLoop fuel url +:+ slashes k)
  /\ lastChar (trimLoop fuel url) <> Some slash.
Proof.
  revert url. induction fuel as [|n IH]; intros url Hlen.
  - destruct url; [|cbn in Hlen; lia]. split; [by exists 0|discriminate].
  - cbn [trimLoop]. destruct (lastChar url) as [c|] eqn:Hlast.
    + destruct (Ascii.eqb c slash) eqn:Hc.
      * apply Ascii.eqb_eq in Hc. subst c.
        pose proof (lastChar_split url slash Hlast) as Hsplit.
        set (rest := String.substring 0 (String.length url - 1) url) in *.
        assert (Hrest : String.length rest <= n).
        { rewrite Hsplit, length_append in Hlen. cbn in Hlen. lia. }
        destruct (IH rest Hrest) as [[k Hk] Hno]. split; [|exact Hno].
        exists (S k). rewrite slashes_snoc, <- append_assoc, <- Hk. exact Hsplit.
      * split; [exists 0; by rewrite append_nil_r|].
        rewrite Hlast. intros [= ->]. by rewrite Ascii.eqb_refl in Hc.
    + split; [exists 0; by rewrite append_nil_r|]. by rewrite Hlast.
Qed.

(** Slashes appended to a string that does not end in one are all removed. *)
Lemma trimLoop_base (fuel : nat) (base : string) (k : nat) :
  lastChar base <> Some slash -> k <= fuel ->
  trimLoop fuel (base +:+ slashes k) = base.
Proof.
  intros Hbase. revert fuel. induction k as [|k IH]; intros fuel Hk.
  - rewrite append_nil_r. destruct fuel as [|n]; [reflexivity|].
    cbn [trimLoop]. destruct (lastChar base) as [c|] eqn:Hlast; [|reflexivity].
    destruct (Ascii.eqb c slash) eqn:Hc; [|reflexivity].
    apply Ascii.eqb_eq in Hc. by subst c.
  - destruct fuel as [|n]; [lia|].
    rewrite slashes_snoc, <- append_assoc. cbn [trimLoop].
    rewrite lastChar_snoc, Ascii.eqb_refl, slice_snoc. apply IH. lia.
Qed.

(** X1. The url the constructor stores is the url it was given without
    its trailing slashes: the slashes removed complete it to the given url,
    it does not end in a slash, and trimming it again changes nothing. The
    loop needs no more iterations than the url has characters: any larger
    bound gives the same result. *)
Theorem trailing_slashes_are_dropped_from_the_url (url : string) :
  (exists k, url = trimmedUrl url +:+ slashes k)
  /\ lastChar (trimmedUrl url) <> Some slash
  /\ trimmedUrl (trimmedUrl url) = trimmedUrl url
  /\ (forall fuel, String.length url <= fuel -> trimLoop fuel url = trimmedUrl url).
Proof.
  destruct (trimLoop_spec (String.length url) url (le_n _)) as [Hk Hno].
  split; [exact Hk|]. split; [exact Hno|]. split.
  - unfold trimmedUrl at 1.
    rewrite <- (append_nil_r (trimmedUrl url)) at 2.
    apply (trimLoop_base _ _ 0 Hno). lia.
  - intros fuel Hfuel. destruct Hk as [k Hk].
    assert (Hlen : k <= fuel).
    { rewrite Hk, length_append, length_slashes in Hfuel. lia. }
    rewrite Hk at 1. apply trimLoop_base; assumption.
Qed.

(** X2. Urls that differ in trailing slashes only name the same broadcast
    channel and the same socket address: for a base that does not end in a
    slash, any number of slashes appended gives the channel [base/room] and
    the address [base/yjs|room]. *)
Theorem trailing_slashes_do_not_change_the_channel (base room : string) (k : nat) :
  lastChar base <> Some slash ->
  broadcastChannel (base +:+ slashes k) room = base +:+ "/" +:+ room
  /\ socketAddress (base +:+ slashes k) room = base +:+ "/yjs|" +:+ room.
Proof.
  intros Hbase.
  assert (Htrim : trimmedUrl (base +:+ slashes k) = base).
  { unfold trimmedUrl. apply trimLoop_base; [exact Hbase|].
    rewrite length_append, length_slashes. lia. }
  unfold broadcastChannel, socketAddress. by rewrite Htrim.
Qed.

(** X3. The room name the server derives from a namespace is what follows
    the prefix [/yjs|]: for the namespace a provider of room [room] joins it
    is [room], whatever characters the room name holds. *)
Theorem roomOf_strips_the_namespace_prefix (room : string) :
  Server.roomOf ("/yjs|" +:+ room) = room.
Proof.
  unfold Server.roomOf.
  assert (Hi : String.index 0 "/yjs|" ("/yjs|" +:+ room) = Some 0)
    by (destruct room; reflexivity).
  rewrite Hi.
  transitivity (String.substring 0 (String.length room - 0) room); [reflexivity|].
  rewrite Nat.sub_0_r. clear Hi.
  induction room as [|a room IH]; [reflexivity|].
  change (String a (String.substring 0 (String.length room) room) = String a room).
  by rewrite IH.
Qed.

End UrlProperties.

(** * The provider between its inputs *)

Section ProviderBehaviour.

Import AwarenessProtocol Client.

Context `{R : Y.Replica}.

Ltac untouched := unfold preserves; intros; reflexivity.

Lemma when_cases (b : Provider -> bool) (c : Cmd) (p : Provider) :
  when b c p = c p \/ when b c p = p.
Proof. unfold when. destruct (b p); auto. Qed.

Lemma trace_effect (e : Effect) (p : Provider) : trace (effect e p) = trace p ++ [e].
Proof. reflexivity. Qed.

Lemma transmitted_app (t1 t2 : list Effect) :
  transmitted (t1 ++ t2) = transmitted t1 ++ transmitted t2.
Proof. apply omap_app. Qed.

Lemma pendingCalls_app (t1 t2 : list Effect) :
  pendingCalls (t1 ++ t2) = pendingCalls t1 ++ pendingCalls t2.
Proof. apply omap_app. Qed.

Ltac traces :=
  rewrite ?transmitted_app, ?pendingCalls_app; cbn [transmitted pendingCalls omap];
  cbn; rewrite <- ?app_assoc, ?app_nil_r; try reflexivity.

(** *** What one local edit does *)

Lemma onUpdateDoc_view (u : Y.Update) (tag : string) (p : Provider) :
  let o := OtherOrigin tag in
  let p' := onUpdateDoc u o p in
  timers p' = <[nextTimer p := FlushPending o (debounceTime p)]>
                (match updateTimer p with
                 | Some h => delete h (timers p)
                 | None => timers p
                 end)
  /\ nextTimer p' = S (nextTimer p)
  /\ updateTimer p' = Some (nextTimer p)
  /\ resyncInterval p' = resyncInterval p
  /\ pendingUpdates p' = match updateTimer p with
                         | Some _ => pendingUpdates p ++ [u]
                         | None => [u]
                         end
  /\ debounceTime p' = debounceTime p
  /\ onPending p' = onPending p
  /\ transmitted (trace p')
     = transmitted (trace p) ++ (if defined (debounceTime p) then [u] else [])
  /\ pendingCalls (trace p')
     = pendingCalls (trace p)
       ++ (if defined (updateTimer p) && onPending p then [true] else []).
Proof.
  destruct p as [db ut op pu d cid a nb bc sy ri rc sc dl al tm nt tr].
  unfold onUpdateDoc, onUpdateDocInner.
  destruct db, ut, op, bc; provider_run; repeat split; traces.
Qed.

(** *** What the debounce timeout does when it fires *)

Lemma fireTimer_flush_view (h : nat) (o : Origin) (delay : option nat) (p : Provider) :
  timers p !! h = Some (FlushPending o delay) ->
  let p' := fireTimer h p in
  timers p' = delete h (timers p)
  /\ nextTimer p' = nextTimer p
  /\ updateTimer p' = None
  /\ resyncInterval p' = resyncInterval p
  /\ pendingUpdates p' = pendingUpdates p
  /\ transmitted (trace p')
     = transmitted (trace p) ++ [Y.mergeUpdates (pendingUpdates p)]
  /\ pendingCalls (trace p')
     = pendingCalls (trace p) ++ (if onPending p then [false] else []).
Proof.
  destruct p as [db ut op pu d cid a nb bc sy ri rc sc dl al tm nt tr].
  intros Harmed. cbn in Harmed.
  unfold fireTimer. provider_run. rewrite Harmed.
  unfold flushPending, onUpdateDocInner.
  destruct op, bc; provider_run; repeat split; traces.
Qed.

(** *** Updates of peers *)

Lemma applyUpdate_this (u : Y.Update) (p : Provider) :
  applyUpdate u ThisProvider p = set_doc (Y.applyUpdate (doc p) u) p.
Proof.
  destruct p as [db ut op pu d cid a nb bc sy ri rc sc dl al tm nt tr].
  unfold applyUpdate. provider_run.
  destruct (Y.updateEvent d u); [|reflexivity].
  destruct dl; reflexivity.
Qed.

(** X4. An update that reaches the provider from a peer (a ['sync-update']
    of the server, the acknowledgment of its own ['sync-step-1'], a
    ['sync-step-2'] or ['sync-update'] of the broadcast channel) is applied
    to the document and nothing else happens: it is neither sent back nor
    buffered, and no timer is armed. *)
Theorem updates_of_peers_are_applied_and_not_sent_back (u : Y.Update) (p : Provider) :
  let applied := set_doc (Y.applyUpdate (doc p) u) p in
  onSocketEvent (Ev_sync_update u) p = applied
  /\ onSocketEvent (Ev_sync_step_1_ack u) p = applied
  /\ (forall tag, onBroadcastChannelMessage (Bc_typed (BcSyncStep2 u)) (OtherOrigin tag) p
                  = applied)
  /\ (forall tag, onBroadcastChannelMessage (Bc_typed (BcSyncUpdate u)) (OtherOrigin tag) p
                  = applied).
Proof. repeat split; intros; apply applyUpdate_this. Qed.

(** *** What the other statements leave alone *)

Section Frame.

Context {A : Type} (f : Provider -> A).
Hypothesis f_effect : forall e, preserves f (effect e).
Hypothesis f_awareness : forall a, preserves f (set_awareness a).
Hypothesis f_synced : forall b, preserves f (set__synced b).
Hypothesis f_bcconnected : forall b, preserves f (set_bcconnected b).
Hypothesis f_doc : forall d, preserves f (set_doc d).

Lemma preserves_applyUpdate_this u : preserves f (applyUpdate u ThisProvider).
Proof using f_doc. intros p. rewrite applyUpdate_this. apply f_doc. Qed.

Lemma preserves_onSocketAwarenessUpdate update :
  preserves f (onSocketAwarenessUpdate update).
Proof using f_effect f_awareness.
  intros p. unfold onSocketAwarenessUpdate.
  destruct (applyAwarenessUpdate (awareness p) update) as [a [c|]].
  - apply (preserves_andThen f (set_awareness a)
             (when awarenessListening (awarenessUpdate c))); [apply f_awareness|].
    apply preserves_when, preserves_awarenessUpdate, f_effect.
  - apply f_awareness.
Qed.

Lemma preserves_beforeUnloadHandler : preserves f beforeUnloadHandler.
Proof using f_effect f_awareness.
  apply (preserves_read f (fun p => [docClientID p]) removeStates).
  intros clients. apply preserves_removeStates; [apply f_effect|apply f_awareness].
Qed.

Lemma preserves_onSocketSyncStep1 sv : preserves f (onSocketSyncStep1 sv).
Proof using f_effect f_synced.
  unfold onSocketSyncStep1. apply preserves_andThen.
  - apply (preserves_read f
             (fun p => SyncStep2 (Y.encodeStateAsUpdate (doc p) (Some sv))) effect).
    exact f_effect.
  - apply preserves_set_synced; [apply f_effect|apply f_synced].
Qed.

Lemma preserves_connectBc : preserves f connectBc.
Proof using f_effect f_bcconnected.
  unfold connectBc.
  apply preserves_andThen;
    [apply preserves_when, preserves_andThen; [apply f_effect|apply f_bcconnected]|].
  apply preserves_andThen;
    [apply (preserves_read f
              (fun p => Bc_publish (BcSyncStep1 (Y.encodeStateVector (doc p)))) effect);
     exact f_effect|].
  apply preserves_andThen;
    [apply (preserves_read f
              (fun p => Bc_publish (BcSyncStep2 (Y.encodeStateAsUpdate (doc p) None)))
              effect);
     exact f_effect|].
  apply preserves_andThen; [apply f_effect|].
  apply (preserves_read f
           (fun p => Bc_publish (BcAwarenessUpdate
                       (encodeAwarenessUpdate (awareness p) [docClientID p]))) effect).
  exact f_effect.
Qed.

Lemma preserves_connect : preserves f connect.
Proof using f_effect f_bcconnected f_synced.
  unfold connect. apply preserves_when.
  apply preserves_andThen; [apply f_effect|].
  apply preserves_andThen; [apply f_effect|].
  apply preserves_andThen; [apply preserves_when, preserves_connectBc|].
  apply preserves_set_synced; [apply f_effect|apply f_synced].
Qed.

Lemma preserves_onBroadcastChannelMessage message origin :
  preserves f (onBroadcastChannelMessage message origin).
Proof using f_effect f_awareness f_doc.
  destruct origin as [|tag]; [untouched|].
  destruct message as [[sv|u|u| |au]|type]; cbn [onBroadcastChannelMessage].
  - apply (preserves_read f
             (fun p => Bc_publish (BcSyncStep2 (Y.encodeStateAsUpdate (doc p) (Some sv))))
             effect).
    exact f_effect.
  - apply preserves_applyUpdate_this.
  - apply preserves_applyUpdate_this.
  - apply (preserves_read f
             (fun p => Bc_publish (BcAwarenessUpdate
                         (encodeAwarenessUpdate (awareness p) (keys (awareness p)))))
             effect).
    exact f_effect.
  - apply preserves_onSocketAwarenessUpdate.
  - untouched.
Qed.

Lemma preserves_resyncTick : preserves f resyncTick.
Proof using f_effect.
  unfold resyncTick, emitSyncStep1. apply preserves_when.
  apply (preserves_read f
           (fun p => Socket_emit_sync_step_1 (Y.encodeStateVector (doc p))) effect).
  exact f_effect.
Qed.

End Frame.

(** *** The timers between the inputs *)

Lemma timerView_untouched (c : Cmd) :
  preserves timerView c -> forall p, timersOk p -> timersOk (c p).
Proof. intros H p. unfold timersOk. by rewrite H. Qed.

Lemma timerViewOk_arm_flush armed next debounce resync o delay :
  timerViewOk (armed, next, debounce, resync) ->
  timerViewOk (<[next := FlushPending o delay]>
                 (match debounce with
                  | Some h => delete h armed
                  | None => armed
                  end),
               S next, Some next, resync).
Proof.
  intros (Hlt & Hfl & Hrs).
  assert (Hin : forall h task,
    match debounce with
    | Some h0 => delete h0 armed
    | None => armed
    end !! h = Some task -> armed !! h = Some task /\ debounce <> Some h).
  { intros h task. destruct debounce as [h0|].
    - intros [Hne Hin]%lookup_delete_Some. split; [done|congruence].
    - done. }
  split; [|split].
  - intros h task [[<- _]|[_ [Hh _]%Hin]]%lookup_insert_Some; [lia|].
    specialize (Hlt _ _ Hh). lia.
  - intros h task [[<- _]|[_ [Hh Hne]%Hin]]%lookup_insert_Some Hf; [done|].
    exfalso. apply Hne. by eapply Hfl.
  - intros h Hh. destruct (Hrs _ Hh) as [Hlt' Hno]. split; [lia|].
    intros task [[<- _]|[_ [Hh' _]%Hin]]%lookup_insert_Some; [lia|].
    by eapply Hno.
Qed.

Lemma timerViewOk_fire_flush armed next debounce resync h o delay :
  armed !! h = Some (FlushPending o delay) ->
  timerViewOk (armed, next, debounce, resync) ->
  timerViewOk (delete h armed, next, None, resync).
Proof.
  intros Harmed (Hlt & Hfl & Hrs).
  assert (Hd : debounce = Some h) by (by eapply Hfl).
  split; [|split].
  - intros h' task [_ Hh]%lookup_delete_Some. by eapply Hlt.
  - intros h' task [Hne Hh]%lookup_delete_Some Hf. exfalso.
    specialize (Hfl _ _ Hh Hf). congruence.
  - intros h' Hh. destruct (Hrs _ Hh) as [Hlt' Hno]. split; [done|].
    intros task [_ Hh']%lookup_delete_Some. by eapply Hno.
Qed.

Lemma timerViewOk_arm_resync armed next debounce resync period :
  timerViewOk (armed, next, debounce, resync) ->
  timerViewOk (<[next := Resync period]> armed, S next, debounce, Some next).
Proof.
  intros (Hlt & Hfl & Hrs).
  split; [|split].
  - intros h task [[<- _]|[_ Hh]]%lookup_insert_Some; [lia|].
    specialize (Hlt _ _ Hh). lia.
  - intros h task [[<- <-]|[_ Hh]]%lookup_insert_Some Hf; [done|]. by eapply Hfl.
  - intros h [= <-]. split; [lia|].
    intros task [[_ <-]|[Hne _]]%lookup_insert_Some; done.
Qed.

Lemma timerViewOk_clear_resync armed next debounce resync :
  timerViewOk (armed, next, debounce, resync) ->
  timerViewOk (match resync with
               | Some h => delete h armed
               | None => armed
               end, next, debounce, resync).
Proof.
  destruct resync as [h0|]; [|done].
  intros (Hlt & Hfl & Hrs).
  split; [|split].
  - intros h task [_ Hh]%lookup_delete_Some. by eapply Hlt.
  - intros h task [_ Hh]%lookup_delete_Some Hf. by eapply Hfl.
  - intros h [= <-]. destruct (Hrs _ eq_refl) as [Hlt' _]. split; [done|].
    intros task [Hne _]%lookup_delete_Some. done.
Qed.

Lemma onUpdateDoc_timerView (u : Y.Update) (tag : string) (p : Provider) :
  timerView (onUpdateDoc u (OtherOrigin tag) p)
  = (<[nextTimer p := FlushPending (OtherOrigin tag) (debounceTime p)]>
       (match updateTimer p with
        | Some h => delete h (timers p)
        | None => timers p
        end),
     S (nextTimer p), Some (nextTimer p), resyncInterval p).
Proof.
  destruct p as [db ut op pu d cid a nb bc sy ri rc sc dl al tm nt tr].
  unfold timerView, onUpdateDoc, onUpdateDocInner.
  destruct db, ut, op, bc; provider_run; reflexivity.
Qed.

Lemma applyUpdate_timersOk (u : Y.Update) (origin : Origin) (p : Provider) :
  timersOk p -> timersOk (applyUpdate u origin p).
Proof.
  destruct origin as [|tag];
    [apply timerView_untouched, preserves_applyUpdate_this; untouched|].
  intros Hok. unfold applyUpdate.
  destruct (Y.updateEvent (doc p) u) as [u'|]; [|exact Hok].
  destruct (when_cases docListening (onUpdateDoc u' (OtherOrigin tag))
              (set_doc (Y.applyUpdate (doc p) u) p)) as [-> | ->]; [|exact Hok].
  unfold timersOk. rewrite onUpdateDoc_timerView.
  by apply timerViewOk_arm_flush.
Qed.

Lemma fireTimer_timersOk (h : nat) (p : Provider) :
  timersOk p -> timersOk (fireTimer h p).
Proof.
  intros Hok. unfold fireTimer.
  destruct (timers p !! h) as [[o delay|period]|] eqn:Harmed; [| |exact Hok].
  - assert (Hview : timerView (flushPending o (clearTimer h p))
                    = (delete h (timers p), nextTimer p, None, resyncInterval p)).
    { destruct p as [db ut op pu d cid a nb bc sy ri rc sc dl al tm nt tr].
      unfold timerView, flushPending, onUpdateDocInner.
      destruct op, bc; provider_run; reflexivity. }
    unfold timersOk. rewrite Hview.
    eapply timerViewOk_fire_flush; [exact Harmed|exact Hok].
  - revert Hok. apply timerView_untouched, preserves_resyncTick. untouched.
Qed.

Lemma onSocketConnection_timerView (p : Provider) :
  timerView (onSocketEvent Ev_connect p)
  = if (0 <? resyncConfig p)%Z
    then (<[nextTimer p := Resync (resyncConfig p)]> (timers p), S (nextTimer p),
          updateTimer p, Some (nextTimer p))
    else timerView p.
Proof.
  destruct p as [db ut op pu d cid a nb bc sy ri rc sc dl al tm nt tr].
  unfold timerView, onSocketEvent, onSocketConnection, emitSyncStep1.
  provider_run.
  destruct (getLocalState a), (0 <? rc)%Z; provider_run; reflexivity.
Qed.

Lemma destroy_timerView (p : Provider) :
  timerView (destroy p)
  = (match resyncInterval p with
     | Some h => delete h (timers p)
     | None => timers p
     end, nextTimer p, updateTimer p, resyncInterval p).
Proof.
  set (q := match resyncInterval p with
            | Some h => clearTimer h p
            | None => p
            end).
  transitivity (timerView q).
  - apply (preserves_after_clearing timerView); untouched.
  - subst q. destruct p as [db ut op pu d cid a nb bc sy ri rc sc dl al tm nt tr].
    unfold timerView. provider_run. destruct ri; reflexivity.
Qed.

Lemma react_timersOk (i : Input) (p : Provider) :
  timersOk p -> timersOk (react i p).
Proof.
  destruct i as [u origin|ev|update|message origin|h| | | | ]; cbn [react].
  - apply applyUpdate_timersOk.
  - destruct ev as [|reason|error|sv|u|u]; [|cbn [onSocketEvent]..].
    + unfold timersOk. rewrite onSocketConnection_timerView.
      destruct (0 <? resyncConfig p)%Z; [|done].
      apply timerViewOk_arm_resync.
    + apply timerView_untouched.
      apply preserves_andThen; [untouched|].
      apply preserves_onSocketDisconnection; untouched.
    + apply timerView_untouched. untouched.
    + apply timerView_untouched, preserves_onSocketSyncStep1; untouched.
    + apply applyUpdate_timersOk.
    + apply applyUpdate_timersOk.
  - apply timerView_untouched, preserves_onSocketAwarenessUpdate; untouched.
  - apply timerView_untouched, preserves_onBroadcastChannelMessage; untouched.
  - apply fireTimer_timersOk.
  - apply timerView_untouched, preserves_connect; untouched.
  - apply timerView_untouched, preserves_disconnect; untouched.
  - unfold timersOk. rewrite destroy_timerView. apply timerViewOk_clear_resync.
  - apply timerView_untouched, preserves_beforeUnloadHandler; untouched.
Qed.

Lemma run_timersOk (inputs : list Input) (p : Provider) :
  timersOk p -> timersOk (run inputs p).
Proof.
  revert p. induction inputs as [|i inputs IH]; intros p Hok; [exact Hok|].
  apply (IH (react i p)), react_timersOk, Hok.
Qed.

(** X5. Whatever the provider is put through after its construction
    (transactions on the document, events of the socket, messages of the
    broadcast channel, timers firing, [connect], [disconnect], [destroy],
    the unload of the page), at most one debounce timeout is armed, and it
    is the one [updateTimer] names; every handle in use was given out; and
    [resyncInterval] never names a debounce timeout. *)
Theorem at_most_one_debounce_timeout_is_armed
    (inputs : list Input) (d : Y.Doc) (cid : nat) (a : Awareness) (resync : Z)
    (noBc : bool) (debounce : option nat) (pendingCb : bool) :
  timersOk (run inputs (newProvider d cid a resync noBc debounce pendingCb)).
Proof.
  apply run_timersOk. repeat split; cbn; intros; try done.
Qed.

(** *** Edits in a row *)

Lemma edits_snoc (o : Origin) (us : list Y.Update) (u : Y.Update) (p : Provider) :
  edits o (us ++ [u]) p = onUpdateDoc u o (edits o us p).
Proof. unfold edits. by rewrite foldl_snoc. Qed.

Lemma edits_view (tag : string) (u0 : Y.Update) (us : list Y.Update) (p : Provider) :
  (forall h task, timers p !! h = Some task -> h < nextTimer p) ->
  updateTimer p = None ->
  let o := OtherOrigin tag in
  let p' := edits o (u0 :: us) p in
  timers p' = <[nextTimer p + length us := FlushPending o (debounceTime p)]> (timers p)
  /\ nextTimer p' = S (nextTimer p + length us)
  /\ updateTimer p' = Some (nextTimer p + length us)
  /\ pendingUpdates p' = u0 :: us
  /\ debounceTime p' = debounceTime p
  /\ onPending p' = onPending p
  /\ transmitted (trace p')
     = transmitted (trace p) ++ (if defined (debounceTime p) then u0 :: us else [])
  /\ pendingCalls (trace p')
     = pendingCalls (trace p) ++ (if onPending p then replicate (length us) true else []).
Proof.
  intros Hfresh Hidle o. subst o. cbv zeta.
  induction us as [|u us IH] using rev_ind.
  - change (edits (OtherOrigin tag) [u0] p) with (onUpdateDoc u0 (OtherOrigin tag) p).
    destruct (onUpdateDoc_view u0 tag p) as (Ht & Hn & Hu & _ & Hp & Hd & Hop & Htr & Hpc).
    rewrite Hidle in Ht, Hp, Hpc. cbn [length defined andb] in *.
    rewrite Nat.add_0_r. repeat split; try assumption.
    rewrite Hpc. by destruct (onPending p).
  - destruct IH as (Ht & Hn & Hu & Hp & Hd & Hop & Htr & Hpc).
    change (u0 :: us ++ [u]) with ((u0 :: us) ++ [u]). rewrite edits_snoc.
    destruct (onUpdateDoc_view u tag (edits (OtherOrigin tag) (u0 :: us) p))
      as (Ht' & Hn' & Hu' & _ & Hp' & Hd' & Hop' & Htr' & Hpc').
    rewrite Hu in Ht', Hp', Hpc'. rewrite Hn in Ht', Hn', Hu'.
    rewrite Hd in Ht', Hd', Htr'. rewrite Ht in Ht'. rewrite Hop in Hop', Hpc'.
    rewrite Hp in Hp'. rewrite Htr in Htr'. rewrite Hpc in Hpc'.
    rewrite length_app. cbn [length defined andb] in *.
    replace (nextTimer p + (length us + 1)) with (S (nextTimer p + length us)) by lia.
    repeat split; try assumption.
    + rewrite Ht', delete_insert_eq, delete_id; [reflexivity|].
      destruct (timers p !! (nextTimer p + length us)) as [task|] eqn:E; [|done].
      apply Hfresh in E. lia.
    + rewrite Htr', <- app_assoc. by destruct (defined (debounceTime p)).
    + rewrite Hpc', <- app_assoc. destruct (onPending p); [|done].
      by rewrite Nat.add_1_r, replicate_S_end.
Qed.

(** X6. Edits made in a row while the provider is idle are buffered in
    order under one debounce timeout, each edit re-arming it: after the
    edits the buffer holds them all, one timeout is armed more than before,
    and when it fires exactly one ['sync-update'] carrying their merge is
    sent and the timeout is gone. As the code has it, each edit is in
    addition sent on its own at once when [debounceTime] is set, and none
    is when it is not. *)
Theorem edits_in_a_row_are_buffered_and_flushed_as_one_merge
    (tag : string) (u0 : Y.Update) (us : list Y.Update) (p : Provider) :
  (forall h task, timers p !! h = Some task -> h < nextTimer p) ->
  updateTimer p = None ->
  let o := OtherOrigin tag in
  let p' := edits o (u0 :: us) p in
  let h := nextTimer p + length us in
  pendingUpdates p' = u0 :: us
  /\ updateTimer p' = Some h
  /\ timers p' = <[h := FlushPending o (debounceTime p)]> (timers p)
  /\ transmitted (trace p')
     = transmitted (trace p) ++ (if defined (debounceTime p) then u0 :: us else [])
  /\ transmitted (trace (fireTimer h p'))
     = transmitted (trace p') ++ [Y.mergeUpdates (u0 :: us)]
  /\ updateTimer (fireTimer h p') = None
  /\ timers (fireTimer h p') = timers p.
Proof.
  intros Hfresh Hidle o p' h. subst o p' h.
  destruct (edits_view tag u0 us p Hfresh Hidle)
    as (Ht & Hn & Hu & Hp & Hd & Hop & Htr & Hpc).
  assert (Harmed : timers (edits (OtherOrigin tag) (u0 :: us) p)
                     !! (nextTimer p + length us)
                   = Some (FlushPending (OtherOrigin tag) (debounceTime p))).
  { rewrite Ht. apply lookup_insert_eq. }
  destruct (fireTimer_flush_view _ _ _ _ Harmed) as (Ht' & _ & Hu' & _ & _ & Htr' & _).
  repeat split; try assumption.
  - rewrite Htr', Hp. reflexivity.
  - rewrite Ht', Ht, delete_insert_eq, delete_id; [reflexivity|].
    destruct (timers p !! (nextTimer p + length us)) as [task|] eqn:E; [|done].
    apply Hfresh in E. lia.
Qed.

(** X21. The [onPending] callback brackets a flush that is pending:
    with a callback registered, edits made in a row while the provider is
    idle call it with [true] once for every edit after the first, and the
    flush calls it with [false] once; with no callback registered nothing is
    called. *)
Theorem onPending_is_called_for_each_edit_that_waits_and_once_at_the_flush
    (tag : string) (u0 : Y.Update) (us : list Y.Update) (p : Provider) :
  (forall h task, timers p !! h = Some task -> h < nextTimer p) ->
  updateTimer p = None ->
  let p' := edits (OtherOrigin tag) (u0 :: us) p in
  let h := nextTimer p + length us in
  pendingCalls (trace p')
  = pendingCalls (trace p) ++ (if onPending p then replicate (length us) true else [])
  /\ pendingCalls (trace (fireTimer h p'))
     = pendingCalls (trace p') ++ (if onPending p then [false] else []).
Proof.
  intros Hfresh Hidle p' h. subst p' h.
  destruct (edits_view tag u0 us p Hfresh Hidle)
    as (Ht & _ & _ & _ & _ & Hop & _ & Hpc).
  assert (Harmed : timers (edits (OtherOrigin tag) (u0 :: us) p)
                     !! (nextTimer p + length us)
                   = Some (FlushPending (OtherOrigin tag) (debounceTime p))).
  { rewrite Ht. apply lookup_insert_eq. }
  destruct (fireTimer_flush_view _ _ _ _ Harmed) as (_ & _ & _ & _ & _ & _ & Hpc').
  split; [exact Hpc|]. rewrite Hpc', Hop. reflexivity.
Qed.

(** X22. A buffer that was flushed is not sent again: after a flush the
    next edit starts a new buffer, so the merge the second timeout sends
    holds the edits made since the first flush and no earlier one. *)
Theorem a_flushed_edit_is_not_flushed_again
    (tag : string) (u0 v0 : Y.Update) (us vs : list Y.Update) (p : Provider) :
  (forall h task, timers p !! h = Some task -> h < nextTimer p) ->
  updateTimer p = None ->
  let o := OtherOrigin tag in
  let h1 := nextTimer p + length us in
  let flushed := fireTimer h1 (edits o (u0 :: us) p) in
  let h2 := S h1 + length vs in
  let p' := edits o (v0 :: vs) flushed in
  pendingUpdates flushed = u0 :: us
  /\ pendingUpdates p' = v0 :: vs
  /\ updateTimer p' = Some h2
  /\ transmitted (trace (fireTimer h2 p'))
     = transmitted (trace p') ++ [Y.mergeUpdates (v0 :: vs)]
  /\ timers (fireTimer h2 p') = timers p.
Proof.
  intros Hfresh Hidle o h1 flushed h2 p'. subst o h1 h2 p' flushed.
  destruct (edits_view tag u0 us p Hfresh Hidle)
    as (Ht & Hn & _ & Hp & _ & _ & _ & _).
  assert (Harmed : timers (edits (OtherOrigin tag) (u0 :: us) p)
                     !! (nextTimer p + length us)
                   = Some (FlushPending (OtherOrigin tag) (debounceTime p))).
  { rewrite Ht. apply lookup_insert_eq. }
  destruct (fireTimer_flush_view _ _ _ _ Harmed) as (Ht1 & Hn1 & Hu1 & _ & Hp1 & _ & _).
  set (q := fireTimer (nextTimer p + length us) (edits (OtherOrigin tag) (u0 :: us) p))
    in *.
  assert (Hsame : timers q = timers p).
  { rewrite Ht1, Ht, delete_insert_eq, delete_id; [reflexivity|].
    destruct (timers p !! (nextTimer p + length us)) as [task|] eqn:E; [|done].
    apply Hfresh in E. lia. }
  assert (Hnext : nextTimer q = S (nextTimer p + length us)) by (by rewrite Hn1, Hn).
  assert (Hfresh' : forall h task, timers q !! h = Some task -> h < nextTimer q).
  { intros h task Hh. rewrite Hsame in Hh. apply Hfresh in Hh. lia. }
  destruct (edits_view tag v0 vs q Hfresh' Hu1)
    as (Ht2 & _ & Hu2 & Hp2 & _ & _ & _ & _).
  rewrite Hnext in Ht2, Hu2.
  assert (Harmed2 : timers (edits (OtherOrigin tag) (v0 :: vs) q)
                      !! (S (nextTimer p + length us) + length vs)
                    = Some (FlushPending (OtherOrigin tag) (debounceTime q))).
  { rewrite Ht2. apply lookup_insert_eq. }
  destruct (fireTimer_flush_view _ _ _ _ Harmed2) as (Ht3 & _ & _ & _ & _ & Htr3 & _).
  split; [by rewrite Hp1|]. split; [exact Hp2|]. split; [exact Hu2|].
  split; [by rewrite Htr3, Hp2|].
  rewrite Ht3, Ht2, delete_insert_eq, delete_id; [exact Hsame|].
  rewrite Hsame.
  destruct (timers p !! (S (nextTimer p + length us) + length vs)) as [task|] eqn:E;
    [|done].
  apply Hfresh in E. lia.
Qed.

(** *** The broadcast channel *)

Lemma awarenessUpdate_transmitted (change : AwarenessChange) (p : Provider) :
  transmitted (trace (awarenessUpdate change p)) = transmitted (trace p)
  /\ pendingUpdates (awarenessUpdate change p) = pendingUpdates p.
Proof.
  destruct p as [db ut op pu d cid a nb bc sy ri rc sc dl al tm nt tr].
  unfold awarenessUpdate. destruct bc; provider_run; split; traces.
Qed.

Lemma onSocketAwarenessUpdate_transmitted (update : AwarenessUpdate) (p : Provider) :
  transmitted (trace (onSocketAwarenessUpdate update p)) = transmitted (trace p)
  /\ pendingUpdates (onSocketAwarenessUpdate update p) = pendingUpdates p.
Proof.
  unfold onSocketAwarenessUpdate.
  destruct (applyAwarenessUpdate (awareness p) update) as [a [c|]]; [|by split].
  destruct (when_cases awarenessListening (awarenessUpdate c) (set_awareness a p))
    as [-> | ->]; [|by split].
  apply (awarenessUpdate_transmitted c (set_awareness a p)).
Qed.

(** X7. Nothing that arrives over the broadcast channel is forwarded to
    the server as a document update: whatever the message and its origin,
    the ['sync-update'] transmissions, the buffer of pending updates and the
    timers are as before; and a message the provider published itself
    changes nothing at all. *)
Theorem broadcast_channel_messages_are_not_forwarded_as_updates
    (message : BcReceived) (origin : Origin) (p : Provider) :
  let p' := onBroadcastChannelMessage message origin p in
  transmitted (trace p') = transmitted (trace p)
  /\ pendingUpdates p' = pendingUpdates p
  /\ timerView p' = timerView p
  /\ onBroadcastChannelMessage message ThisProvider p = p.
Proof.
  cbv zeta. split; [|split; [|split]].
  - destruct origin as [|tag]; [reflexivity|].
    destruct message as [[sv|u|u| |au]|type]; cbn [onBroadcastChannelMessage];
      rewrite ?applyUpdate_this; try reflexivity.
    + rewrite trace_effect, transmitted_app. apply app_nil_r.
    + rewrite trace_effect, transmitted_app. apply app_nil_r.
    + apply onSocketAwarenessUpdate_transmitted.
  - destruct origin as [|tag]; [reflexivity|].
    destruct message as [[sv|u|u| |au]|type]; cbn [onBroadcastChannelMessage];
      rewrite ?applyUpdate_this; try reflexivity.
    apply onSocketAwarenessUpdate_transmitted.
  - apply preserves_onBroadcastChannelMessage; untouched.
  - reflexivity.
Qed.

(** *** The resync interval *)

Lemma timerView_eq (q : Provider) armed next debounce resync :
  timerView q = (armed, next, debounce, resync) ->
  timers q = armed /\ nextTimer q = next /\ updateTimer q = debounce
  /\ resyncInterval q = resync.
Proof. unfold timerView. intros H. by injection H. Qed.

Lemma when_false (b : Provider -> bool) (c : Cmd) (p : Provider) :
  b p = false -> when b c p = p.
Proof. unfold when. by intros ->. Qed.

Lemma fireTimer_resync (h : nat) (period : Z) (p : Provider) :
  timers p !! h = Some (Resync period) -> fireTimer h p = resyncTick p.
Proof.
  destruct p as [db ut op pu d cid a nb bc sy ri rc sc dl al tm nt tr].
  intros Harmed. cbn in Harmed. unfold fireTimer. provider_run. by rewrite Harmed.
Qed.

(** X8. A transport disconnection cancels no timer: an armed resync
    interval stays armed and [resyncInterval] keeps its handle; while the
    socket is disconnected a tick of the interval sends nothing. *)
Theorem a_disconnection_leaves_the_resync_interval_armed
    (h : nat) (period : Z) (reason : string) (p : Provider) :
  timers p !! h = Some (Resync period) ->
  let p' := onSocketEvent (Ev_disconnect reason) p in
  timers p' !! h = Some (Resync period)
  /\ resyncInterval p' = resyncInterval p
  /\ updateTimer p' = updateTimer p
  /\ fireTimer h p' = p'.
Proof.
  intros Harmed p'.
  assert (Hview : timerView p' = timerView p).
  { subst p'. cbn [onSocketEvent].
    apply (preserves_andThen timerView); [untouched|].
    apply preserves_onSocketDisconnection; untouched. }
  assert (Hoff : socketConnected p' = false).
  { subst p'. cbn [onSocketEvent]. unfold andThen.
    rewrite (preserves_onSocketDisconnection socketConnected); [reflexivity|untouched..]. }
  apply timerView_eq in Hview as (Ht & _ & Hu & Hr).
  assert (Harmed' : timers p' !! h = Some (Resync period)) by (by rewrite Ht).
  repeat split; try assumption.
  rewrite (fireTimer_resync h period p' Harmed').
  apply when_false, Hoff.
Qed.


(** *** [disconnect] and [destroy] *)

Lemma disconnect_connected (p : Provider) :
  socketConnected p = true ->
  disconnect p
  = onSocketDisconnection "io client disconnect"
      (set_socketConnected false (effect Socket_disconnect (disconnectBc p)))
  /\ bcconnected (disconnectBc p) = false.
Proof.
  destruct p as [db ut op pu d cid a nb bc sy ri rc sc dl al tm nt tr].
  intros Hon. cbn in Hon. subst sc.
  unfold disconnect, socketDisconnect, disconnectBc.
  destruct bc; split; reflexivity.
Qed.

Lemma disconnect_socketConnected (p : Provider) : socketConnected (disconnect p) = false.
Proof.
  destruct (socketConnected p) eqn:Hon.
  - destruct (disconnect_connected p Hon) as [-> _].
    rewrite (preserves_onSocketDisconnection socketConnected); [reflexivity|untouched..].
  - unfold disconnect. rewrite when_false; assumption.
Qed.


Lemma getLocalState_clearLocalState (a : Awareness) :
  getLocalState (clearLocalState a) = None.
Proof.
  unfold getLocalState, getState, clearLocalState, deleteState. cbn.
  replace (list_find (fun e : nat * string => e.1 = clientID a)
             (filter (fun e : nat * string => e.1 ≠ clientID a) (states a)))
    with (@None (nat * (nat * string))); [reflexivity|].
  symmetry. apply list_find_None, Forall_forall.
  intros e [Hne _]%list_elem_of_filter. exact Hne.
Qed.

Lemma applyUpdate_detached (u : Y.Update) (origin : Origin) (p : Provider) :
  docListening p = false ->
  applyUpdate u origin p = set_doc (Y.applyUpdate (doc p) u) p.
Proof.
  destruct p as [db ut op pu d cid a nb bc sy ri rc sc dl al tm nt tr].
  intros Hoff. cbn in Hoff. subst dl.
  unfold applyUpdate. provider_run. by destruct (Y.updateEvent d u).
Qed.


(** X12. The unload handler removes the provider's own entry from its
    awareness and no other entry; nothing else of the provider changes but
    the trace, and when the provider has no local state the trace is as
    before as well. *)
Theorem unload_removes_the_local_awareness_state_only (p : Provider) :
  states (awareness (beforeUnloadHandler p))
  = filter (fun e => e.1 ≠ docClientID p) (states (awareness p))
  /\ doc (beforeUnloadHandler p) = doc p
  /\ timerView (beforeUnloadHandler p) = timerView p
  /\ (has (awareness p) (docClientID p) = false ->
      trace (beforeUnloadHandler p) = trace p).
Proof.
  split; [|split; [|split]].
  - unfold beforeUnloadHandler.
    rewrite removeStates_awareness, removeAwarenessStates_states.
    apply filter_agree. intros e _. cbv beta.
    rewrite list_elem_of_singleton. tauto.
  - apply (preserves_beforeUnloadHandler doc); untouched.
  - apply preserves_beforeUnloadHandler; untouched.
  - intros Hno. unfold beforeUnloadHandler, removeStates, removeAwarenessStates.
    cbn [removeLoop]. rewrite Hno. reflexivity.
Qed.

(** *** Notifications *)

Lemma follow_snoc (previous : bool) (reports : list bool) (b : bool) :
  follow previous (reports ++ [b])
  = match follow previous reports with
    | Some v => if eqb v b then None else Some b
    | None => None
    end.
Proof.
  revert previous. induction reports as [|r reports IH]; intros previous; cbn.
  - by destruct (eqb previous b).
  - destruct (eqb previous r); [reflexivity|apply IH].
Qed.

Lemma keeps_view (c : Cmd) :
  preserves (fun p => (trace p, _synced p, bcconnected p)) c -> keeps c.
Proof.
  intros H p. specialize (H p). cbv beta in H. injection H as Ht Hs Hb.
  unfold noticesOk. by rewrite Ht, Hs, Hb.
Qed.

Lemma keeps_effect (e : Effect) : quiet e = true -> keeps (effect e).
Proof.
  intros Hq p [Hs Hb]. unfold noticesOk.
  rewrite trace_effect. unfold notifiedSynced, subscriptions in *.
  rewrite !omap_app.
  destruct e; try discriminate Hq; cbn [omap list_omap]; rewrite !app_nil_r;
    split; assumption.
Qed.

Lemma keeps_andThen (c1 c2 : Cmd) : keeps c1 -> keeps c2 -> keeps (c1 >>> c2).
Proof. intros H1 H2 p Hp. apply H2, H1, Hp. Qed.

Lemma keeps_when (b : Provider -> bool) (c : Cmd) : keeps c -> keeps (when b c).
Proof. intros H p Hp. destruct (when_cases b c p) as [-> | ->]; [by apply H|exact Hp]. Qed.

Lemma keeps_set_synced (state : bool) : keeps (set_synced state).
Proof.
  intros p [Hs Hb].
  destruct p as [db ut op pu d cid a nb bc sy ri rc sc dl al tm nt tr].
  unfold noticesOk, set_synced in *. cbn in Hs, Hb.
  destruct sy, state; provider_run; try (split; assumption);
    unfold notifiedSynced, subscriptions in *;
    rewrite <- !app_assoc, !omap_app; cbn [omap list_omap app];
    rewrite ?app_nil_r, ?follow_snoc, ?Hs, ?Hb; split; reflexivity.
Qed.

Lemma keeps_subscribe :
  keeps (when (fun p => negb (bcconnected p)) (effect Bc_subscribe >>> set_bcconnected true)).
Proof.
  intros p [Hs Hb].
  destruct p as [db ut op pu d cid a nb bc sy ri rc sc dl al tm nt tr].
  unfold noticesOk in *. cbn in Hs, Hb.
  destruct bc; provider_run; try (split; assumption);
    unfold notifiedSynced, subscriptions in *;
    rewrite !omap_app; cbn [omap list_omap app];
    rewrite ?app_nil_r, ?follow_snoc, ?Hs, ?Hb; split; reflexivity.
Qed.

Lemma keeps_unsubscribe :
  keeps (when bcconnected (effect Bc_unsubscribe >>> set_bcconnected false)).
Proof.
  intros p [Hs Hb].
  destruct p as [db ut op pu d cid a nb bc sy ri rc sc dl al tm nt tr].
  unfold noticesOk in *. cbn in Hs, Hb.
  destruct bc; provider_run; try (split; assumption);
    unfold notifiedSynced, subscriptions in *;
    rewrite !omap_app; cbn [omap list_omap app];
    rewrite ?app_nil_r, ?follow_snoc, ?Hs, ?Hb; split; reflexivity.
Qed.

(** A statement built from the statements above. *)
Ltac keep :=
  lazymatch goal with
  | |- keeps (_ >>> _) => apply keeps_andThen; keep
  | |- keeps (when (fun p => negb (bcconnected p)) (effect Bc_subscribe >>> _)) =>
      apply keeps_subscribe
  | |- keeps (when bcconnected (effect Bc_unsubscribe >>> _)) => apply keeps_unsubscribe
  | |- keeps (when _ _) => apply keeps_when; keep
  | |- keeps (set_synced _) => apply keeps_set_synced
  | |- keeps (effect _) => apply keeps_effect; reflexivity
  | |- keeps (fun p => effect _ p) =>
      let q := fresh "q" in let Hq := fresh "Hq" in
      intros q Hq; refine (keeps_effect _ _ q Hq); reflexivity
  | |- keeps _ => first [assumption | apply keeps_view; untouched]
  end.

Lemma keeps_onUpdateDocInner u origin : keeps (onUpdateDocInner u origin).
Proof. unfold onUpdateDocInner. keep. Qed.

Lemma keeps_setTimer task (k : nat -> Cmd) : (forall h, keeps (k h)) -> keeps (setTimer task k).
Proof.
  intros H p Hp. unfold setTimer. apply H.
  revert Hp. apply (keeps_view (set_timers (<[nextTimer p := task]> (timers p))
                                   (S (nextTimer p)))). untouched.
Qed.

Lemma keeps_onUpdateDoc u origin : keeps (onUpdateDoc u origin).
Proof.
  intros p [Hs Hb]. destruct origin as [|tag]; [by split|].
  destruct p as [db ut op pu d cid a nb bc sy ri rc sc dl al tm nt tr].
  unfold noticesOk, onUpdateDoc, onUpdateDocInner in *. cbn in Hs, Hb.
  destruct db, ut, op, bc; provider_run;
    unfold notifiedSynced, subscriptions in *;
    rewrite ?omap_app; cbn [omap list_omap]; rewrite ?app_nil_r; split; assumption.
Qed.

Lemma keeps_applyUpdate u origin : keeps (applyUpdate u origin).
Proof.
  intros p Hp. unfold applyUpdate.
  assert (Hq : noticesOk (set_doc (Y.applyUpdate (doc p) u) p)) by exact Hp.
  destruct (Y.updateEvent (doc p) u) as [u'|]; [|exact Hq].
  revert Hq. apply keeps_when, keeps_onUpdateDoc.
Qed.

Lemma keeps_flushPending origin : keeps (flushPending origin).
Proof.
  unfold flushPending. apply keeps_andThen; [|keep].
  intros q Hq. exact (keeps_onUpdateDocInner _ _ q Hq).
Qed.

Lemma keeps_awarenessUpdate change : keeps (awarenessUpdate change).
Proof.
  intros p Hp. rewrite awarenessUpdate_unfold. revert Hp.
  generalize (encodeAwarenessUpdate (awareness p)
                (added change ++ updated change ++ removed change)).
  intros au. revert p.
  change (keeps (effect (Socket_emit_awareness_update au) >>>
                 when bcconnected (effect (Bc_publish (BcAwarenessUpdate au))))).
  keep.
Qed.

Lemma keeps_removeStates clients : keeps (removeStates clients).
Proof.
  intros p Hp. unfold removeStates.
  destruct (removeAwarenessStates (awareness p) clients) as [a [c|]].
  - assert (Hq : noticesOk (set_awareness a p)) by exact Hp.
    revert Hq. apply keeps_when, keeps_awarenessUpdate.
  - exact Hp.
Qed.

Lemma keeps_onSocketAwarenessUpdate update : keeps (onSocketAwarenessUpdate update).
Proof.
  intros p Hp. unfold onSocketAwarenessUpdate.
  destruct (applyAwarenessUpdate (awareness p) update) as [a [c|]].
  - assert (Hq : noticesOk (set_awareness a p)) by exact Hp.
    revert Hq. apply keeps_when, keeps_awarenessUpdate.
  - exact Hp.
Qed.

Lemma keeps_connectBc : keeps connectBc.
Proof. unfold connectBc. keep. Qed.

Lemma keeps_disconnectBc : keeps disconnectBc.
Proof. unfold disconnectBc. keep. Qed.

Lemma keeps_connect : keeps connect.
Proof.
  unfold connect. apply keeps_when.
  apply keeps_andThen; [keep|]. apply keeps_andThen; [keep|].
  apply keeps_andThen; [apply keeps_when, keeps_connectBc|keep].
Qed.

Lemma keeps_onSocketDisconnection reason : keeps (onSocketDisconnection reason).
Proof.
  unfold onSocketDisconnection.
  apply keeps_andThen; [keep|]. apply keeps_andThen; [keep|].
  apply keeps_andThen; [|keep].
  intros q Hq. exact (keeps_removeStates _ q Hq).
Qed.

Lemma keeps_disconnect : keeps disconnect.
Proof.
  unfold disconnect, socketDisconnect.
  apply keeps_when, keeps_andThen; [apply keeps_disconnectBc|].
  apply keeps_andThen; [keep|].
  apply keeps_when, keeps_andThen; [keep|apply keeps_onSocketDisconnection].
Qed.

Lemma keeps_destroy : keeps destroy.
Proof.
  unfold destroy. apply keeps_andThen.
  - intros q Hq. destruct (resyncInterval q) as [h|]; [|exact Hq].
    revert Hq. apply (keeps_view (clearTimer h)). untouched.
  - apply keeps_andThen; [apply keeps_disconnect|].
    apply keeps_andThen; [keep|]. apply keeps_andThen; [keep|].
    apply keeps_andThen; [|keep].
    intros q Hq. exact Hq.
Qed.

Lemma keeps_fireTimer h : keeps (fireTimer h).
Proof.
  intros p Hp. unfold fireTimer.
  destruct (timers p !! h) as [[o delay|period]|]; [| |exact Hp].
  - apply keeps_flushPending. revert Hp. apply (keeps_view (clearTimer h)). untouched.
  - revert Hp. unfold resyncTick, emitSyncStep1. apply keeps_when.
    intros q Hq. refine (keeps_effect _ _ q Hq); reflexivity.
Qed.

Lemma keeps_onSocketEvent ev : keeps (onSocketEvent ev).
Proof.
  destruct ev as [|reason|error|sv|u|u]; cbn [onSocketEvent].
  - apply keeps_andThen; [keep|].
    intros q Hq. unfold onSocketConnection, emitSyncStep1. revert Hq.
    generalize (resyncConfig q). intros period. revert q.
    change (keeps
      (effect (Emit_status connected) >>>
       (fun p => effect (Socket_emit_sync_step_1 (Y.encodeStateVector (doc p))) p) >>>
       when (fun p => defined (getLocalState (awareness p)))
         (fun p => effect (Socket_emit_awareness_update
                     (encodeAwarenessUpdate (awareness p) [docClientID p])) p) >>>
       when (fun _ => (0 <? period)%Z)
         (setTimer (Resync period) (fun h => set_resyncInterval (Some h))))).
    apply keeps_andThen; [keep|]. apply keeps_andThen; [keep|].
    apply keeps_andThen; [keep|].
    apply keeps_when, keeps_setTimer. intros h. keep.
  - apply keeps_andThen; [keep|apply keeps_onSocketDisconnection].
  - unfold onSocketConnectionError. keep.
  - unfold onSocketSyncStep1. keep.
  - apply keeps_applyUpdate.
  - apply keeps_applyUpdate.
Qed.

Lemma keeps_onBroadcastChannelMessage message origin :
  keeps (onBroadcastChannelMessage message origin).
Proof.
  destruct origin as [|tag]; [intros p Hp; exact Hp|].
  destruct message as [[sv|u|u| |au]|type]; cbn [onBroadcastChannelMessage].
  - keep.
  - apply keeps_applyUpdate.
  - apply keeps_applyUpdate.
  - keep.
  - apply keeps_onSocketAwarenessUpdate.
  - intros p Hp. exact Hp.
Qed.

Lemma keeps_react i : keeps (react i).
Proof.
  destruct i as [u origin|ev|update|message origin|h| | | | ]; cbn [react].
  - apply keeps_applyUpdate.
  - apply keeps_onSocketEvent.
  - apply keeps_onSocketAwarenessUpdate.
  - apply keeps_onBroadcastChannelMessage.
  - apply keeps_fireTimer.
  - apply keeps_connect.
  - apply keeps_disconnect.
  - apply keeps_destroy.
  - intros p Hp. exact (keeps_removeStates _ p Hp).
Qed.

Lemma keeps_run inputs : keeps (run inputs).
Proof.
  induction inputs as [|i inputs IH]; intros p Hp; [exact Hp|].
  apply (IH (react i p)), keeps_react, Hp.
Qed.

(** X24. Whatever the provider is put through after its construction,
    its ['synced'] notifications change value every time, the first being
    [true], and end on the current value of [synced] (a provider that never
    notified is not synced); and its subscriptions to and unsubscriptions
    from the broadcast channel take turns, a subscription first, and it is
    subscribed exactly when [bcconnected] holds. *)
Theorem notifications_follow_the_flags
    (inputs : list Input) (d : Y.Doc) (cid : nat) (a : Awareness) (resync : Z)
    (noBc : bool) (debounce : option nat) (pendingCb : bool) :
  noticesOk (run inputs (newProvider d cid a resync noBc debounce pendingCb)).
Proof. apply keeps_run. split; reflexivity. Qed.

(** *** A join that is let in *)

Lemma onSocketConnection_trace (p : Provider) :
  trace (onSocketEvent Ev_connect p)
  = trace p ++ Emit_status connected
      :: Socket_emit_sync_step_1 (Y.encodeStateVector (doc p))
      :: (if defined (getLocalState (awareness p))
          then [Socket_emit_awareness_update
                  (encodeAwarenessUpdate (awareness p) [docClientID p])]
          else [])
  /\ socketConnected (onSocketEvent Ev_connect p) = true
  /\ doc (onSocketEvent Ev_connect p) = doc p.
Proof.
  destruct p as [db ut op pu d cid a nb bc sy ri rc sc dl al tm nt tr].
  unfold onSocketEvent, onSocketConnection, emitSyncStep1. provider_run.
  destruct (getLocalState a), (0 <? rc)%Z; provider_run; repeat split;
    rewrite <- ?app_assoc; reflexivity.
Qed.


End ProviderBehaviour.

(** * The server between its connections *)

Section ServerBehaviour.

Import AwarenessProtocol Server.

Context `{R : Y.Replica}.

(** X14. The controller is a map from room names to documents: a document
    registered under a name is what [get] returns for it and [has] reports,
    until it is deleted; registering or deleting one name leaves every other
    name as it was; [getAll] returns the whole map. *)
Theorem the_controller_returns_what_was_registered
    (s : YSocketIO) (docName : string) (doc : nat) :
  bind (documents_set docName doc) (fun _ => documents_get docName) s
  = (Returned (Some doc), set__documents (<[docName := doc]> (_documents s)) s)
  /\ bind (documents_set docName doc) (fun _ => documents_has docName) s
     = (Returned true, set__documents (<[docName := doc]> (_documents s)) s)
  /\ bind (documents_delete docName) (fun _ => documents_get docName) s
     = (Returned None, set__documents (delete docName (_documents s)) s)
  /\ bind (documents_delete docName) (fun _ => documents_has docName) s
     = (Returned false, set__documents (delete docName (_documents s)) s)
  /\ (forall other, other <> docName ->
        bind (documents_set docName doc) (fun _ => documents_get other) s
        = (Returned (_documents s !! other),
           set__documents (<[docName := doc]> (_documents s)) s)
        /\ bind (documents_delete docName) (fun _ => documents_get other) s
           = (Returned (_documents s !! other),
              set__documents (delete docName (_documents s)) s))
  /\ documents_getAll s = (Returned (_documents s), s).
Proof.
  destruct s as [docs hp nx pe db au gce eg so bo tr].
  unfold documents_set, documents_get, documents_has, documents_delete, documents_getAll.
  server_run.
  rewrite lookup_insert_eq, lookup_delete_eq. cbn [defined].
  repeat split; try reflexivity.
  - by rewrite lookup_insert_ne.
  - by rewrite lookup_delete_ne.
Qed.

(** *** The first join of a room *)

(** The state a first call of [initDocument] for a room leaves. *)
Lemma initDocument_first_state (docName nsp : string) (gc : bool) (s : YSocketIO) :
  _documents s !! docName = None ->
  initDocument docName nsp gc s
  = (Returned (Some (nextRef s)),
     set_trace
       (trace s
        ++ (if persistence s
            then match Y.updateEvent Y.newDoc
                         (Y.encodeStateAsUpdate (replay (stored s docName)) None) with
                 | Some u => [Namespace_local_emit nsp (Sync_update u)]
                 | None => []
                 end
            else [])
        ++ [Emit_document_loaded (nextRef s)])
       (set__documents (<[docName := nextRef s]> (_documents s))
          (set_ldb (if persistence s
                    then <[docName := stored s docName
                                      ++ [Y.encodeStateAsUpdate Y.newDoc None]]> (ldb s)
                    else ldb s)
             (set_heap (<[nextRef s := builtDocument s docName nsp gc]> (heap s))
                (S (nextRef s)) s)))).
Proof.
  intros Hreg. destruct s as [docs hp nx pe db au gce eg so bo tr].
  cbn in Hreg. unfold initDocument. cbn [initDocumentRun].
  unfold bind at 1. cbn [initDocumentStep]. unfold documents_get. server_run.
  rewrite Hreg. cbn [initDocumentStep]. unfold newDocument, documents_has.
  server_run. rewrite Hreg. cbn [defined initDocumentStep]. server_run.
  rewrite alter_insert_eq. unfold builtDocument, stored. server_run.
  destruct pe.
  - unfold bindState_getYDoc, getYDoc, stored. server_run. cbn [initDocumentStep].
    unfold bindState_storeUpdate, storeUpdate, stored. server_run.
    rewrite lookup_insert_eq.
    server_run. cbn [initDocumentStep]. unfold bindState_applyUpdate. server_run.
    unfold applyUpdate. server_run. rewrite lookup_insert_eq. server_run.
    rewrite alter_insert_eq. server_run.
    match goal with |- context [Y.updateEvent ?d ?u] =>
      destruct (Y.updateEvent d u) as [u1|] end.
    + unfold emitUpdate. server_run. rewrite lookup_insert_eq. server_run.
      cbn [forEach runUpdateListener]. unfold onUpdateDoc. server_run.
      rewrite lookup_insert_eq. server_run. cbn [isLocalOnly]. server_run.
      rewrite alter_insert_eq. server_run.
      cbn [initDocumentStep]. unfold documents_set. server_run.
      cbn [initDocumentStep]. server_run. cbn [returned].
      rewrite <- app_assoc. reflexivity.
    + server_run. rewrite alter_insert_eq. server_run.
      cbn [initDocumentStep]. unfold documents_set. server_run.
      cbn [initDocumentStep]. server_run. cbn [returned]. reflexivity.
  - unfold documents_set. server_run. cbn [initDocumentStep]. server_run.
    cbn [returned]. reflexivity.
Qed.

(** X15. The first join of a room builds one document and registers it.
    When [initDocument] returns, with persistence set the document holds
    what the store held under the room's name and is hooked to the store,
    and the store has received what the new document held; the document
    carries the [gc] flag asked for, and ['document-loaded'] is the last
    thing emitted. Without persistence the document starts empty and the
    store is not touched. *)
Theorem the_first_join_loads_the_stored_state
    (docName nsp : string) (gc : bool) (s : YSocketIO) :
  _documents s !! docName = None ->
  exists s' loading,
    initDocument docName nsp gc s = (Returned (Some (nextRef s)), s')
    /\ heap s' !! nextRef s = Some (builtDocument s docName nsp gc)
    /\ _documents s' = <[docName := nextRef s]> (_documents s)
    /\ stored s' docName
       = stored s docName
         ++ (if persistence s then [Y.encodeStateAsUpdate Y.newDoc None] else [])
    /\ trace s' = trace s ++ loading ++ [Emit_document_loaded (nextRef s)]
    /\ (persistence s = false -> loading = [] /\ ldb s' = ldb s).
Proof.
  intros Hreg. eexists _, _. split; [apply initDocument_first_state, Hreg|].
  destruct s as [docs hp nx pe db au gce eg so bo tr].
  split; [apply lookup_insert_eq|]. split; [reflexivity|].
  split; [|split; [reflexivity|]].
  - unfold stored. cbn. destruct pe; [by rewrite lookup_insert_eq|by rewrite app_nil_r].
  - cbn. intros ->. by split.
Qed.

(** *** Updates to the document of a room *)

(** An update applied to a document as [initDocument] builds it. *)
Lemma applyUpdate_as_built (s : YSocketIO) (d : nat) (doc : Document) (u : Y.Update)
    (hooked : bool) (n : string) :
  heap s !! d = Some doc ->
  callbacks doc = None ->
  isLocalOnly (localOnly doc) = true ->
  updateListeners doc = (if hooked then [OnUpdateDoc; StoreUpdate n] else [OnUpdateDoc]) ->
  applyUpdate d u s
  = (Returned tt,
     match Y.updateEvent (ydoc doc) u with
     | Some u' =>
         set_trace (trace s ++ [Namespace_local_emit (namespace doc) (Sync_update u')])
           (set_ldb (if hooked then <[n := stored s n ++ [u']]> (ldb s) else ldb s)
              (set_heap (<[d := set_ydoc (Y.applyUpdate (ydoc doc) u) doc]> (heap s))
                 (nextRef s) s))
     | None =>
         set_heap (<[d := set_ydoc (Y.applyUpdate (ydoc doc) u) doc]> (heap s))
           (nextRef s) s
     end).
Proof.
  intros Hheap Hcb Hlo Hls.
  assert (Halter : forall f, alter f d (heap s) = <[d := f doc]> (heap s)).
  { intros f. apply map_eq. intros i. destruct (decide (i = d)) as [->|Hne].
    - by rewrite lookup_alter_eq, lookup_insert_eq, Hheap.
    - by rewrite lookup_alter_ne, lookup_insert_ne. }
  destruct s as [docs hp nx pe db au gce eg so bo tr].
  destruct doc as [nm nsp lo cb g yd aw ul al de].
  cbn in Hheap, Hcb, Hlo, Hls, Halter. subst cb ul.
  unfold applyUpdate. server_run. rewrite Hheap. server_run. rewrite Halter.
  destruct (Y.updateEvent yd u) as [u'|]; [|reflexivity].
  unfold emitUpdate. server_run. rewrite lookup_insert_eq. server_run.
  destruct hooked; cbn [forEach runUpdateListener]; unfold onUpdateDoc; server_run;
    rewrite lookup_insert_eq; server_run; rewrite Hlo; server_run;
    [unfold storeUpdate, stored; server_run|]; reflexivity.
Qed.

(** X16. An update a client sends to a room is applied to the room's
    document. When it changes the document, the change is emitted once to
    the sockets this server holds in the namespace (a local emit), and with
    persistence it is appended once to the store under the room's name; no
    ['document-update'] event is emitted. An update that changes nothing is
    neither emitted nor stored. *)
Theorem updates_to_a_room_are_relayed_locally_and_stored
    (docName nsp : string) (gc : bool) (s0 : YSocketIO) (u : Y.Update) :
  _documents s0 !! docName = None ->
  let d := nextRef s0 in
  let before := ydoc (builtDocument s0 docName nsp gc) in
  exists s s',
    initDocument docName nsp gc s0 = (Returned (Some d), s)
    /\ onSyncUpdate d u s = (Returned tt, s')
    /\ (ydoc <$> heap s' !! d) = Some (Y.applyUpdate before u)
    /\ trace s'
       = trace s ++ match Y.updateEvent before u with
                    | Some u' => [Namespace_local_emit nsp (Sync_update u')]
                    | None => []
                    end
    /\ stored s' docName
       = stored s docName
         ++ match Y.updateEvent before u with
            | Some u' => if persistence s0 then [u'] else []
            | None => []
            end.
Proof.
  intros Hreg d before. subst d.
  eexists _, _. split; [apply initDocument_first_state, Hreg|].
  split.
  - unfold onSyncUpdate.
    apply (applyUpdate_as_built _ _ (builtDocument s0 docName nsp gc) u
             (persistence s0) docName);
      [apply lookup_insert_eq|reflexivity..].
  - fold before. destruct (Y.updateEvent before u) as [u'|].
    + split; [cbn; by rewrite lookup_insert_eq|]. split; [reflexivity|].
      unfold stored. cbn. destruct (persistence s0); cbn;
        rewrite ?lookup_insert_eq; cbn; by rewrite ?app_nil_r.
    + split; [cbn; by rewrite lookup_insert_eq|]. split; [cbn; by rewrite app_nil_r|].
      by rewrite app_nil_r.
Qed.

(** *** A later join *)

Lemma onConnection_registered (s : YSocketIO) (socket : nat) (nsp : string) (d : nat)
    (doc : Document) :
  _documents s !! roomOf nsp = Some d ->
  heap s !! d = Some doc ->
  exists s',
    onConnection socket nsp s = (Returned tt, s')
    /\ trace s'
       = trace s
         ++ [Socket_emit socket (Sync_step_1 (Y.encodeStateVector (ydoc doc)));
             Socket_emit socket
               (Awareness_update
                  (encodeAwarenessUpdate (awareness doc) (keys (awareness doc))))]
    /\ bound s' !! socket = Some (nsp, d)
    /\ socketsOf s' nsp = {[socket]} ∪ socketsOf s nsp
    /\ heap s' = alter (set_gc (default true (gcEnabled s))) d (heap s)
    /\ _documents s' = _documents s
    /\ nextRef s' = nextRef s
    /\ ldb s' = ldb s.
Proof.
  intros Hreg Hheap.
  destruct s as [docs hp nx pe db au gce eg so bo tr].
  destruct doc as [nm ns lo cb g yd aw ul al de].
  cbn in Hreg, Hheap.
  unfold onConnection, socketsOf. server_run.
  erewrite initDocument_registered by exact Hreg.
  server_run. unfold startSynchronization. server_run.
  rewrite lookup_alter_eq, Hheap. cbn [fmap option_fmap option_map]. server_run.
  eexists. split; [reflexivity|]. server_run.
  rewrite <- app_assoc, !lookup_insert_eq. repeat split; reflexivity.
Qed.

(** X17. A socket that joins a room whose document is registered is bound
    to that document and is sent two messages and no other: ['sync-step-1']
    with the document's state vector, then ['awareness-update'] with every
    awareness state the document holds. No document is built, nothing is
    loaded or stored, ['document-loaded'] is not emitted; the document's
    [gc] flag is set to the configured value (true when none is
    configured), and the other documents are as they were. *)
Theorem a_later_join_is_sent_the_state_and_builds_nothing
    (s : YSocketIO) (socket : nat) (nsp : string) (d : nat) (doc : Document) :
  _documents s !! roomOf nsp = Some d ->
  heap s !! d = Some doc ->
  exists s',
    onConnection socket nsp s = (Returned tt, s')
    /\ trace s'
       = trace s
         ++ [Socket_emit socket (Sync_step_1 (Y.encodeStateVector (ydoc doc)));
             Socket_emit socket
               (Awareness_update
                  (encodeAwarenessUpdate (awareness doc) (keys (awareness doc))))]
    /\ bound s' !! socket = Some (nsp, d)
    /\ socket ∈ socketsOf s' nsp
    /\ heap s' !! d = Some (set_gc (default true (gcEnabled s)) doc)
    /\ (forall other, other <> d -> heap s' !! other = heap s !! other)
    /\ _documents s' = _documents s
    /\ nextRef s' = nextRef s
    /\ ldb s' = ldb s.
Proof.
  intros Hreg Hheap.
  destruct (onConnection_registered s socket nsp d doc Hreg Hheap)
    as (s' & Hrun & Htr & Hb & Hso & Hhp & Hdocs & Hnx & Hdb).
  exists s'. repeat split; try assumption.
  - rewrite Hso. apply elem_of_union_l, elem_of_singleton. reflexivity.
  - by rewrite Hhp, lookup_alter_eq, Hheap.
  - intros other Hne. by rewrite Hhp, lookup_alter_ne.
Qed.

(** *** A room that was emptied *)

(** [destroy] on a document that holds no [onDestroy] callback: the
    controller is not touched and no event is emitted. *)
Lemma destroy_without_onDestroy (s : YSocketIO) (d : nat) (doc : Document) :
  heap s !! d = Some doc ->
  callbacks doc ≫= onDestroy = None ->
  exists s',
    destroy d s = (Returned tt, s')
    /\ trace s' = trace s ++ [Namespace_disconnectSockets (namespace doc)]
    /\ heap s' !! d
       = Some (set_destroyed true (set_updateListeners []
                 (set_awarenessListening false doc)))
    /\ _documents s' = _documents s
    /\ nextRef s' = nextRef s
    /\ ldb s' = ldb s
    /\ persistence s' = persistence s
    /\ gcEnabled s' = gcEnabled s.
Proof.
  intros Hheap Hcb.
  destruct s as [docs hp nx pe db au gce eg so bo tr].
  destruct doc as [nm nsp lo cb g yd aw ul al de].
  cbn in Hheap.
  unfold destroy. server_run. rewrite Hheap. server_run.
  unfold disconnectSockets, superDestroy.
  destruct cb as [[ou oa [od|]]|]; try discriminate Hcb; server_run;
    (eexists; split; [reflexivity|]); server_run;
    rewrite !lookup_alter_eq, Hheap; repeat split; reflexivity.
Qed.

Lemma applyUpdate_without_listeners (s : YSocketIO) (d : nat) (doc : Document)
    (u : Y.Update) :
  heap s !! d = Some doc ->
  updateListeners doc = [] ->
  applyUpdate d u s
  = (Returned tt,
     set_heap (alter (set_ydoc (Y.applyUpdate (ydoc doc) u)) d (heap s)) (nextRef s) s).
Proof.
  intros Hheap Hls.
  destruct s as [docs hp nx pe db au gce eg so bo tr].
  destruct doc as [nm nsp lo cb g yd aw ul al de].
  cbn in Hheap, Hls. subst ul.
  unfold applyUpdate. server_run. rewrite Hheap. server_run.
  destruct (Y.updateEvent yd u) as [u'|]; [|reflexivity].
  unfold emitUpdate. server_run. rewrite lookup_alter_eq, Hheap.
  cbn [fmap option_fmap option_map]. server_run. reflexivity.
Qed.

(** X18. With persistence set, the document of a room whose last socket
    left is destroyed but, holding no [onDestroy] callback (as
    [initDocument] builds it), it stays registered and ['document-destroy']
    is not emitted. The next socket to join the room is therefore bound to
    the destroyed document: no document is built, and an update sent to
    the room afterwards is applied to it without being emitted to anyone or
    stored. *)
Theorem a_drained_room_is_served_its_destroyed_document
    (s : YSocketIO) (socket next : nat) (nsp : string) (d : nat) (doc : Document) :
  persistence s = true ->
  bound s !! socket = Some (nsp, d) ->
  heap s !! d = Some doc ->
  namespace doc = nsp ->
  callbacks doc = None ->
  _documents s !! roomOf nsp = Some d ->
  socketsOf s nsp ⊆ {[socket]} ->
  exists s1 s2,
    socketDisconnects socket s = (Returned tt, s1)
    /\ trace s1
       = trace s ++ [Emit_all_document_connections_closed d;
                     Persistence_writeState (name doc);
                     Namespace_disconnectSockets nsp]
    /\ _documents s1 = _documents s
    /\ onConnection next nsp s1 = (Returned tt, s2)
    /\ bound s2 !! next = Some (nsp, d)
    /\ nextRef s2 = nextRef s
    /\ (destroyed <$> heap s2 !! d) = Some true
    /\ (updateListeners <$> heap s2 !! d) = Some []
    /\ forall u, exists s3,
         onSyncUpdate d u s2 = (Returned tt, s3)
         /\ trace s3 = trace s2
         /\ ldb s3 = ldb s2.
Proof.
  intros Hpers Hbound Hheap Hnsp Hcb Hreg Hlast.
  assert (Hgone : socketsOf s nsp ∖ {[socket]} = ∅).
  { apply leibniz_equiv, elem_of_equiv_empty. intros x [Hx Hne]%elem_of_difference.
    apply Hne, Hlast, Hx. }
  assert (Hleft : exists s1,
    socketDisconnects socket s = (Returned tt, s1)
    /\ trace s1
       = trace s ++ [Emit_all_document_connections_closed d;
                     Persistence_writeState (name doc);
                     Namespace_disconnectSockets nsp]
    /\ heap s1 !! d
       = Some (set_destroyed true (set_updateListeners []
                 (set_awarenessListening false doc)))
    /\ _documents s1 = _documents s
    /\ nextRef s1 = nextRef s).
  { destruct s as [docs hp nx pe db au gce eg so bo tr].
    unfold socketsOf in Hgone. cbn in Hpers, Hbound, Hheap, Hgone. subst pe.
    unfold socketDisconnects, onDisconnect, writeState, socketsOf.
    server_run. rewrite Hbound. server_run.
    rewrite lookup_insert_eq. cbn [default]. rewrite Hgone, size_empty.
    rewrite bool_decide_eq_true_2 by reflexivity. server_run.
    rewrite Hheap. server_run.
    match goal with |- context [destroy d ?s0] =>
      destruct (destroy_without_onDestroy s0 d doc Hheap)
        as (s1 & Hd & Ht & Hh & Hdocs & Hnx & _) end.
    { by rewrite Hcb. }
    exists s1. rewrite Hd. split; [reflexivity|].
    rewrite Hnsp in Ht. split; [|split; [exact Hh|split; assumption]].
    etransitivity; [exact Ht|]. cbn. rewrite <- !app_assoc. reflexivity. }
  destruct Hleft as (s1 & Hrun1 & Htr1 & Hheap1 & Hdocs1 & Hnx1).
  assert (Hreg1 : _documents s1 !! roomOf nsp = Some d) by (by rewrite Hdocs1).
  destruct (onConnection_registered s1 next nsp d _ Hreg1 Hheap1)
    as (s2 & Hrun2 & _ & Hb2 & _ & Hhp2 & _ & Hnx2 & _).
  assert (Hheap2 : heap s2 !! d
    = Some (set_gc (default true (gcEnabled s1))
              (set_destroyed true (set_updateListeners []
                 (set_awarenessListening false doc))))).
  { by rewrite Hhp2, lookup_alter_eq, Hheap1. }
  exists s1, s2. repeat split; try assumption.
  - by rewrite Hnx2.
  - by rewrite Hheap2.
  - by rewrite Hheap2.
  - intros u. eexists. split.
    + unfold onSyncUpdate. apply (applyUpdate_without_listeners _ _ _ _ Hheap2).
      reflexivity.
    + split; reflexivity.
Qed.

(** *** A socket that is not the last to leave *)

(** X23. When a socket leaves a room that other sockets are still in, the
    server takes it out of the namespace and does nothing else: no event is
    emitted, and the document is neither written nor destroyed, with or
    without persistence. *)
Theorem a_disconnect_that_is_not_the_last_changes_nothing
    (s : YSocketIO) (socket other : nat) (nsp : string) (d : nat) :
  bound s !! socket = Some (nsp, d) ->
  other ∈ socketsOf s nsp ->
  other <> socket ->
  socketDisconnects socket s
  = (Returned tt,
     set_sockets (<[nsp := socketsOf s nsp ∖ {[socket]}]> (sockets s)) s).
Proof.
  intros Hbound Hother Hne.
  assert (Hsize : size (socketsOf s nsp ∖ {[socket]}) <> 0).
  { intros Hzero. apply size_empty_inv in Hzero.
    assert (Hin : other ∈ socketsOf s nsp ∖ {[socket]}).
    { apply elem_of_difference. split; [exact Hother|]. by rewrite elem_of_singleton. }
    rewrite Hzero in Hin. by apply not_elem_of_empty in Hin. }
  destruct s as [docs hp nx pe db au gce eg so bo tr].
  unfold socketsOf in Hsize. cbn in Hbound, Hsize.
  unfold socketDisconnects, onDisconnect, socketsOf.
  server_run. rewrite Hbound. server_run.
  rewrite lookup_insert_eq. cbn [default].
  rewrite bool_decide_eq_false_2 by exact Hsize. reflexivity.
Qed.

End ServerBehaviour.

(** * The two sync-step-1 round trips of a join *)

Section Handshake.

Import AwarenessProtocol.

Context `{R : Y.Replica}.

(** X19. The provider's ['sync-step-1'] round trip. The provider sends the
    state vector of its document; the server answers through the
    acknowledgment with what its document of the room holds beyond that
    state vector, and changes nothing of its own; the provider applies the
    answer to its document and sends nothing back. So a provider that joins
    late obtains what the server's document holds without any other peer
    resending it. *)
Theorem the_provider_pulls_what_it_misses_from_the_server
    (p : Client.Provider) (s : Server.YSocketIO) (socket d : nat)
    (document : Server.Document) :
  Server.heap s !! d = Some document ->
  let sv := Y.encodeStateVector (Client.doc p) in
  let answer := Y.encodeStateAsUpdate (Server.ydoc document) (Some sv) in
  let p1 := Client.emitSyncStep1 p in
  let p2 := Client.onSocketEvent (Client.Ev_sync_step_1_ack answer) p1 in
  Client.trace p1 = Client.trace p ++ [Client.Socket_emit_sync_step_1 sv]
  /\ Server.onSyncStep1 socket d sv s
     = (Server.Returned tt,
        Server.set_trace (Server.trace s ++ [Server.SyncStep2 socket answer]) s)
  /\ Client.doc p2 = Y.applyUpdate (Client.doc p) answer
  /\ Client.trace p2 = Client.trace p1
  /\ Client.timerView p2 = Client.timerView p
  /\ Client.pendingUpdates p2 = Client.pendingUpdates p.
Proof.
  intros Hheap sv answer p1 p2. subst p2 p1.
  split; [reflexivity|]. split.
  - destruct s as [docs hp nx pe db au gce eg so bo tr].
    cbn in Hheap. unfold Server.onSyncStep1. server_run. rewrite Hheap. reflexivity.
  - cbn [Client.onSocketEvent]. rewrite applyUpdate_this.
    repeat split; reflexivity.
Qed.

(** X20. The server's ['sync-step-1'] round trip. On a join the server
    sends the socket the state vector of the room's document; the provider
    answers through the acknowledgment with what its document holds beyond
    that state vector and is [synced] from then on; the server applies the
    answer to the room's document. So what a provider edited while it was
    not connected reaches the server when it joins. *)
Theorem the_server_pulls_what_it_misses_from_the_provider
    (p : Client.Provider) (s : Server.YSocketIO) (socket d : nat)
    (document : Server.Document) :
  Server.heap s !! d = Some document ->
  let sv := Y.encodeStateVector (Server.ydoc document) in
  let answer := Y.encodeStateAsUpdate (Client.doc p) (Some sv) in
  let p1 := Client.onSocketEvent (Client.Ev_sync_step_1 sv) p in
  exists s1 s2 notified,
    Server.startSynchronization socket d s = (Server.Returned tt, s1)
    /\ Server.trace s1
       = Server.trace s
         ++ [Server.Socket_emit socket (Server.Sync_step_1 sv);
             Server.Socket_emit socket
               (Server.Awareness_update
                  (encodeAwarenessUpdate (Server.awareness document)
                     (keys (Server.awareness document))))]
    /\ Client.trace p1 = Client.trace p ++ Client.SyncStep2 answer :: notified
    /\ Client._synced p1 = true
    /\ Client.doc p1 = Client.doc p
    /\ Server.applyUpdate d answer s1 = (Server.Returned tt, s2)
    /\ (Server.ydoc <$> Server.heap s2 !! d)
       = Some (Y.applyUpdate (Server.ydoc document) answer).
Proof.
  intros Hheap sv answer p1.
  assert (Hstart : exists s1,
    Server.startSynchronization socket d s = (Server.Returned tt, s1)
    /\ Server.trace s1
       = Server.trace s
         ++ [Server.Socket_emit socket (Server.Sync_step_1 sv);
             Server.Socket_emit socket
               (Server.Awareness_update
                  (encodeAwarenessUpdate (Server.awareness document)
                     (keys (Server.awareness document))))]
    /\ Server.heap s1 = Server.heap s).
  { destruct s as [docs hp nx pe db au gce eg so bo tr].
    cbn in Hheap. unfold Server.startSynchronization. server_run. rewrite Hheap.
    server_run. eexists. split; [reflexivity|]. server_run.
    rewrite <- app_assoc. split; reflexivity. }
  destruct Hstart as (s1 & Hrun1 & Htr1 & Hhp1).
  assert (Hheap1 : Server.heap s1 !! d = Some document) by (by rewrite Hhp1).
  destruct (applyUpdate_frame d answer s1) as (hp & db & t & Hrun2 & Hhp).
  rewrite Hheap1 in Hhp.
  assert (Hclient : exists notified,
    Client.trace p1 = Client.trace p ++ Client.SyncStep2 answer :: notified
    /\ Client._synced p1 = true /\ Client.doc p1 = Client.doc p).
  { subst p1 answer.
    destruct p as [? ? ? ? ? ? ? ? ? synced ? ? ? ? ? ? ? tr].
    unfold Client.onSocketEvent, Client.onSocketSyncStep1, Client.set_synced.
    destruct synced; provider_run; eexists; rewrite <- ?app_assoc;
      repeat split; reflexivity. }
  destruct Hclient as (notified & Hc1 & Hc2 & Hc3).
  eexists s1, _, notified. split; [exact Hrun1|]. split; [exact Htr1|].
  split; [exact Hc1|]. split; [exact Hc2|]. split; [exact Hc3|].
  split; [exact Hrun2|].
  transitivity (Server.ydoc <$> hp !! d); [reflexivity|].
  rewrite Hhp, lookup_alter_eq, Hheap1. reflexivity.
Qed.

End Handshake.

(** * Runs of the provider and of the server on the grow-only replica *)

Section Runs.

Import AwarenessProtocol.

#[local] Existing Instance Y.GrowOnly.

Lemma trailing_slashes_do_not_change_the_channel_witness :
  Client.broadcastChannel "ws://localhost:1234//" "demo" = "ws://localhost:1234/demo"
  /\ Client.socketAddress "ws://localhost:1234//" "demo" = "ws://localhost:1234/yjs|demo".
Proof.
  apply (trailing_slashes_do_not_change_the_channel "ws://localhost:1234" "demo" 2).
  vm_compute. discriminate.
Defined.

Lemma edits_in_a_row_are_buffered_and_flushed_as_one_merge_witness :
  Client.updateTimer Examples.debouncing = None
  /\ let p' := Client.edits Examples.localEdit [[1]; [2]; [3]] Examples.debouncing in
     Client.pendingUpdates p' = [[1]; [2]; [3]]
     /\ Client.updateTimer p' = Some 2
     /\ Client.timers p' = {[2 := Client.FlushPending Examples.localEdit (Some 100)]}
     /\ Client.transmitted (Client.trace p') = [[1]; [2]; [3]]
     /\ Client.transmitted (Client.trace (Client.fireTimer 2 p'))
        = [[1]; [2]; [3]; [1; 2; 3]]
     /\ Client.updateTimer (Client.fireTimer 2 p') = None
     /\ Client.timers (Client.fireTimer 2 p') = ∅.
Proof.
  split; [reflexivity|].
  apply (edits_in_a_row_are_buffered_and_flushed_as_one_merge (R := Y.GrowOnly)
           "local" [1] [[2]; [3]] Examples.debouncing).
  - intros h task Harmed. vm_compute in Harmed. discriminate.
  - reflexivity.
Defined.

Lemma a_disconnection_leaves_the_resync_interval_armed_witness :
  Client.timers Examples.resyncing !! 0 = Some (Client.Resync 5000)
  /\ let p' := Client.onSocketEvent (Client.Ev_disconnect "transport close")
                 Examples.resyncing in
     Client.timers p' !! 0 = Some (Client.Resync 5000)
     /\ Client.resyncInterval p' = Client.resyncInterval Examples.resyncing
     /\ Client.updateTimer p' = Client.updateTimer Examples.resyncing
     /\ Client.fireTimer 0 p' = p'.
Proof.
  split; [vm_compute; reflexivity|].
  apply (a_disconnection_leaves_the_resync_interval_armed
           0 5000 "transport close" Examples.resyncing).
  vm_compute. reflexivity.
Defined.



Lemma the_first_join_loads_the_stored_state_witness :
  Server._documents Examples.stocked !! "R" = None
  /\ exists s' loading,
       Server.initDocument "R" "/yjs|R" true Examples.stocked
       = (Server.Returned (Some 1), s')
       /\ (Server.ydoc <$> Server.heap s' !! 1) = Some [1; 2; 3]
       /\ (Server.updateListeners <$> Server.heap s' !! 1)
          = Some [Server.OnUpdateDoc; Server.StoreUpdate "R"]
       /\ Server._documents s' !! "R" = Some 1
       /\ Server.stored s' "R" = [[1; 2]; [2; 3]; []]
       /\ Server.trace s'
          = Server.trace Examples.stocked ++ loading ++ [Server.Emit_document_loaded 1].
Proof.
  split; [vm_compute; reflexivity|].
  destruct (the_first_join_loads_the_stored_state "R" "/yjs|R" true Examples.stocked)
    as (s' & loading & Hrun & Hdoc & Hreg & Hstore & Htrace & _).
  - vm_compute. reflexivity.
  - change (Server.nextRef Examples.stocked) with 1 in Hdoc.
    exists s', loading. split; [exact Hrun|].
    split; [rewrite Hdoc; vm_compute; reflexivity|].
    split; [rewrite Hdoc; vm_compute; reflexivity|].
    split; [rewrite Hreg; vm_compute; reflexivity|].
    split; [rewrite Hstore; vm_compute; reflexivity|exact Htrace].
Defined.

Lemma updates_to_a_room_are_relayed_locally_and_stored_witness :
  Server._documents Examples.stocked !! "R" = None
  /\ exists s s',
       Server.initDocument "R" "/yjs|R" true Examples.stocked
       = (Server.Returned (Some 1), s)
       /\ Server.onSyncUpdate 1 [3; 4] s = (Server.Returned tt, s')
       /\ (Server.ydoc <$> Server.heap s' !! 1) = Some [1; 2; 3; 4]
       /\ Server.trace s'
          = Server.trace s ++ [Server.Namespace_local_emit "/yjs|R" (Server.Sync_update [4])]
       /\ Server.stored s' "R" = Server.stored s "R" ++ [[4]].
Proof.
  split; [vm_compute; reflexivity|].
  apply (updates_to_a_room_are_relayed_locally_and_stored (R := Y.GrowOnly)
           "R" "/yjs|R" true Examples.stocked [3; 4]).
  vm_compute. reflexivity.
Defined.

Lemma a_later_join_is_sent_the_state_and_builds_nothing_witness :
  Server._documents (Examples.joined true) !! Server.roomOf "/yjs|R" = Some 0
  /\ Server.heap (Examples.joined true) !! 0 = Some Examples.roomDocument
  /\ exists s',
       Server.onConnection 2 "/yjs|R" (Examples.joined true) = (Server.Returned tt, s')
       /\ Server.trace s'
          = Server.trace (Examples.joined true)
            ++ [Server.Socket_emit 2 (Server.Sync_step_1 []);
                Server.Socket_emit 2 (Server.Awareness_update [])]
       /\ Server.bound s' !! 2 = Some ("/yjs|R", 0)
       /\ Server.nextRef s' = 1.
Proof.
  split; [vm_compute; reflexivity|]. split; [vm_compute; reflexivity|].
  destruct (a_later_join_is_sent_the_state_and_builds_nothing (Examples.joined true)
              2 "/yjs|R" 0 Examples.roomDocument)
    as (s' & Hrun & Htrace & Hbound & _ & _ & _ & _ & Hnext & _).
  - vm_compute. reflexivity.
  - vm_compute. reflexivity.
  - exists s'. split; [exact Hrun|]. split; [exact Htrace|]. split; [exact Hbound|].
    exact Hnext.
Defined.

Lemma a_drained_room_is_served_its_destroyed_document_witness :
  exists s1 s2,
    Server.socketDisconnects 1 (Examples.joined true) = (Server.Returned tt, s1)
    /\ Server._documents s1 !! "R" = Some 0
    /\ Server.onConnection 2 "/yjs|R" s1 = (Server.Returned tt, s2)
    /\ Server.bound s2 !! 2 = Some ("/yjs|R", 0)
    /\ (Server.destroyed <$> Server.heap s2 !! 0) = Some true
    /\ exists s3,
         Server.onSyncUpdate 0 [5] s2 = (Server.Returned tt, s3)
         /\ Server.trace s3 = Server.trace s2
         /\ Server.ldb s3 = Server.ldb s2.
Proof.
  destruct (a_drained_room_is_served_its_destroyed_document (Examples.joined true)
              1 2 "/yjs|R" 0 Examples.roomDocument)
    as (s1 & s2 & Hrun1 & _ & Hdocs & Hrun2 & Hbound & _ & Hdestroyed & _ & Hsilent).
  - vm_compute. reflexivity.
  - vm_compute. reflexivity.
  - vm_compute. reflexivity.
  - reflexivity.
  - reflexivity.
  - vm_compute. reflexivity.
  - assert (Hone : Server.socketsOf (Examples.joined true) "/yjs|R" = {[1]})
      by (vm_compute; reflexivity).
    rewrite Hone. reflexivity.
  - exists s1, s2. split; [exact Hrun1|].
    split; [rewrite Hdocs; vm_compute; reflexivity|].
    split; [exact Hrun2|]. split; [exact Hbound|]. split; [exact Hdestroyed|].
    exact (Hsilent [5]).
Defined.

Lemma the_provider_pulls_what_it_misses_from_the_server_witness :
  Server.heap Examples.stocked !! 0 = Some Examples.stockedDocument
  /\ let p1 := Client.emitSyncStep1 Examples.offline in
     let p2 := Client.onSocketEvent (Client.Ev_sync_step_1_ack [9]) p1 in
     Client.trace p1
     = Client.trace Examples.offline ++ [Client.Socket_emit_sync_step_1 [7; 8]]
     /\ Server.onSyncStep1 1 0 [7; 8] Examples.stocked
        = (Server.Returned tt,
           Server.set_trace
             (Server.trace Examples.stocked ++ [Server.SyncStep2 1 [9]]) Examples.stocked)
     /\ Client.doc p2 = [7; 8; 9]
     /\ Client.trace p2 = Client.trace p1
     /\ Client.timerView p2 = Client.timerView Examples.offline
     /\ Client.pendingUpdates p2 = Client.pendingUpdates Examples.offline.
Proof.
  split; [vm_compute; reflexivity|].
  apply (the_provider_pulls_what_it_misses_from_the_server (R := Y.GrowOnly)
           Examples.offline Examples.stocked 1 0 Examples.stockedDocument).
  vm_compute. reflexivity.
Defined.

Lemma the_server_pulls_what_it_misses_from_the_provider_witness :
  Server.heap Examples.stocked !! 0 = Some Examples.stockedDocument
  /\ exists s1 s2 notified,
       Server.startSynchronization 1 0 Examples.stocked = (Server.Returned tt, s1)
       /\ Client.trace (Client.onSocketEvent (Client.Ev_sync_step_1 [9]) Examples.offline)
          = Client.trace Examples.offline ++ Client.SyncStep2 [7; 8] :: notified
       /\ Client._synced (Client.onSocketEvent (Client.Ev_sync_step_1 [9]) Examples.offline)
          = true
       /\ Server.applyUpdate 0 [7; 8] s1 = (Server.Returned tt, s2)
       /\ (Server.ydoc <$> Server.heap s2 !! 0) = Some [9; 7; 8].
Proof.
  split; [vm_compute; reflexivity|].
  destruct (the_server_pulls_what_it_misses_from_the_provider (R := Y.GrowOnly)
              Examples.offline Examples.stocked 1 0 Examples.stockedDocument)
    as (s1 & s2 & notified & Hrun1 & _ & Htrace & Hsynced & _ & Hrun2 & Hdoc).
  - vm_compute. reflexivity.
  - exists s1, s2, notified. split; [exact Hrun1|]. split; [exact Htrace|].
    split; [exact Hsynced|]. split; [exact Hrun2|]. exact Hdoc.
Defined.

Lemma onPending_is_called_for_each_edit_that_waits_and_once_at_the_flush_witness :
  Client.updateTimer Examples.debouncing = None
  /\ let p' := Client.edits Examples.localEdit [[1]; [2]; [3]] Examples.debouncing in
     Client.pendingCalls (Client.trace p') = [true; true]
     /\ Client.pendingCalls (Client.trace (Client.fireTimer 2 p')) = [true; true; false].
Proof.
  split; [reflexivity|].
  apply (onPending_is_called_for_each_edit_that_waits_and_once_at_the_flush
           (R := Y.GrowOnly) "local" [1] [[2]; [3]] Examples.debouncing).
  - intros h task Harmed. vm_compute in Harmed. discriminate.
  - reflexivity.
Defined.

Lemma a_flushed_edit_is_not_flushed_again_witness :
  Client.updateTimer Examples.debouncing = None
  /\ let flushed := Client.fireTimer 1
                      (Client.edits Examples.localEdit [[1]; [2]] Examples.debouncing) in
     let p' := Client.edits Examples.localEdit [[3]] flushed in
     Client.pendingUpdates flushed = [[1]; [2]]
     /\ Client.pendingUpdates p' = [[3]]
     /\ Client.updateTimer p' = Some 2
     /\ Client.transmitted (Client.trace (Client.fireTimer 2 p'))
        = Client.transmitted (Client.trace p') ++ [[3]]
     /\ Client.timers (Client.fireTimer 2 p') = ∅.
Proof.
  split; [reflexivity|].
  apply (a_flushed_edit_is_not_flushed_again (R := Y.GrowOnly)
           "local" [1] [3] [[2]] [] Examples.debouncing).
  - intros h task Harmed. vm_compute in Harmed. discriminate.
  - reflexivity.
Defined.

Lemma a_disconnect_that_is_not_the_last_changes_nothing_witness :
  Server.bound Examples.crowded !! 1 = Some ("/yjs|R", 0)
  /\ Server.trace (Examples.state (Server.socketDisconnects 1 Examples.crowded))
     = Server.trace Examples.crowded
  /\ Server.heap (Examples.state (Server.socketDisconnects 1 Examples.crowded))
     = Server.heap Examples.crowded.
Proof.
  split; [vm_compute; reflexivity|].
  rewrite (a_disconnect_that_is_not_the_last_changes_nothing (R := Y.GrowOnly)
             Examples.crowded 1 2 "/yjs|R" 0).
  - split; reflexivity.
  - vm_compute. reflexivity.
  - apply (bool_decide_unpack (2 ∈ Server.socketsOf Examples.crowded "/yjs|R")).
    vm_compute. exact I.
  - discriminate.
Defined.

End Runs.
